(** * orbit_jni.cpp: sampling an SGP4 trajectory from a two-line element set

    The JNI entry point [Java_com_orbitYu_orbit_OrbitPropagator_propagateFromTle]
    parses a TLE pair with Vallado's [twoline2rv], computes a number of
    sample points from a duration and a step, calls [sgp4] once per sample,
    converts every state to latitude, longitude and altitude, and hands the
    flat array of doubles back to Java.

    The wrapper is embedded as a function on binary64 numbers (Rocq's
    primitive floats).  The SGP4 library ([sgp4io.h], [sgp4coord.h]) and the
    JNI environment are interfaces of the wrapper and appear as classes. *)

From Stdlib Require Import ZArith String Ascii List Bool Lia.
From Stdlib Require Import Floats DecimalString DecimalZ.
From Stdlib Require Import Reals Lra.
Import ListNotations.
Local Open Scope Z_scope.

Set Implicit Arguments.

(** ** C++ [int] *)

Module CInt.

Definition INT_MAX : Z := 2147483647.
Definition INT_MIN : Z := -2147483648.

Definition in_range (z : Z) : bool := (INT_MIN <=? z) && (z <=? INT_MAX).

(** The result of a signed operation, [None] when it overflows (the
    behaviour of the program is then undefined). *)
Definition checked (z : Z) : option Z := if in_range z then Some z else None.

Definition add (a b : Z) : option Z := checked (a + b).
Definition mul (a b : Z) : option Z := checked (a * b).

(** [static_cast<jsize>] of a [size_t]: reduction modulo 2^32 into the
    signed range. *)
Definition of_size_t (n : Z) : Z := (n + 2147483648) mod 4294967296 - 2147483648.

(** [std::to_string(int)]. *)
Definition to_string (i : Z) : string := NilZero.string_of_int (Z.to_int i).

End CInt.

(** ** C++ [double] *)

Module CDouble.

(** The mathematical value of [std::floor x]; [None] for NaN and the
    infinities, which [std::floor] returns unchanged. *)
Definition floor_value (x : float) : option Z :=
  match Prim2SF x with
  | S754_zero _ => Some 0
  | S754_finite s m e => Some (Z.shiftl (cond_Zopp s (Zpos m)) e)
  | S754_infinity _ | S754_nan => None
  end.

(** [static_cast<int>(std::floor(x))].  [std::floor x] is integral, so the
    conversion truncates nothing; it is defined only when the value is
    representable in [int]. *)
Definition int_of_floor (x : float) : option Z :=
  match floor_value x with
  | Some z => CInt.checked z
  | None => None
  end.

(** Conversion of an [int] to [double], exact on the whole range of [int]. *)
Definition of_int (i : Z) : float :=
  if i <? 0 then (- of_uint63 (Uint63.of_Z (- i)))%float
  else of_uint63 (Uint63.of_Z i).

End CDouble.

(** *** Signs of binary64 numbers

    [sf_sign_in b x]: [x] is a zero, a NaN, or has sign bit [b];
    [sf_signed b x]: [x] is finite and not zero, or infinite, with sign bit [b]. *)

Definition sf_sign_in (b : bool) (x : spec_float) : Prop :=
  match x with
  | S754_finite s _ _ | S754_infinity s => s = b
  | S754_zero _ | S754_nan => True
  end.

Definition sf_signed (b : bool) (x : spec_float) : Prop :=
  match x with
  | S754_finite s _ _ | S754_infinity s => s = b
  | S754_zero _ | S754_nan => False
  end.

(** *** Values of binary64 numbers

    The real number [m * 2^e] of a mantissa and an exponent, and where a
    real lies between two consecutive multiples of [2^e] (what the
    rounding of [SpecFloat] calls a location). *)

Definition pow2 (e : Z) : R := powerRZ 2 e.

Definition F2R (m e : Z) : R := (IZR m * pow2 e)%R.

Definition inbetween (x : R) (m e : Z) (l : location) : Prop :=
  match l with
  | loc_Exact => x = F2R m e
  | loc_Inexact Lt => (F2R m e < x < (IZR m + / 2) * pow2 e)%R
  | loc_Inexact Eq => x = ((IZR m + / 2) * pow2 e)%R
  | loc_Inexact Gt => ((IZR m + / 2) * pow2 e < x < (IZR m + 1) * pow2 e)%R
  end.

Definition located (x : R) (mrs : shr_record) (e : Z) : Prop :=
  0 <= shr_m mrs /\ inbetween x (shr_m mrs) e (loc_of_shr_record mrs).

(** The exponent of the binary64 numbers with [e] as the position of their
    leading bit. *)
Definition fexp64 (e : Z) : Z := SpecFloat.fexp prec emax e.

(** The largest finite binary64 number. *)
Definition max_float_value : R := (9007199254740991 * pow2 971)%R.

(** ** The SGP4 library, as the wrapper sees it *)

Inductive gravconsttype := wgs72old | wgs72 | wgs84.

(** [double r[3]]. *)
Record vec3 := Vec3 { at0 : float; at1 : float; at2 : float }.

(** The declarations of [sgp4io.h] and [sgp4coord.h] the wrapper uses.  The
    record [satrec] is handed to the library as an lvalue, so a call to
    [sgp4] yields the record as the library leaves it besides the verdict
    and the state vectors. *)
Class Sgp4Library := {
  elsetrec : Type;
  error : elsetrec -> Z;
  jdsatepoch : elsetrec -> float;
  pi : float;
  twoline2rv : string -> string -> ascii -> ascii -> ascii -> gravconsttype -> elsetrec;
  sgp4 : gravconsttype -> elsetrec -> float -> elsetrec * option (vec3 * vec3);
  teme2ecef : vec3 -> vec3 -> float -> vec3 * vec3;
  ijk2ll : vec3 -> vec3
}.

(** ** The JNI environment *)

(** [NewDoubleArray n] tells whether the virtual machine can allocate an
    array of [n] doubles (the call returns a null reference otherwise). *)
Record JNIEnv := { NewDoubleArray : Z -> bool }.

Definition IllegalArgumentException : string := "java/lang/IllegalArgumentException".
Definition RuntimeException : string := "java/lang/RuntimeException".
Definition OutOfMemoryError : string := "java/lang/OutOfMemoryError".

(** What the caller observes: an array, a pending Java exception (the
    native method returns null), or nothing that the language defines; in
    this last case the calls listed beside the outcome say nothing of what
    a compiled program does. *)
Inductive outcome :=
| Returned (a : list float)
| Threw (cls msg : string)
| Undefined.

(** The calls into the library made by the sampling loop, in order:
    [sgp4] with its elapsed time, [teme2ecef] with its Julian date, [ijk2ll]
    with the Earth-fixed position it is given. *)
Inductive lib_call :=
| Call_sgp4 (tsince : float)
| Call_teme2ecef (jdut1 : float)
| Call_ijk2ll (recef : vec3).

(** The two [jstring] arguments of the native method. *)
Inductive jni_line := Line1 | Line2.

(** The calls the native method makes on the JNI environment, in order.
    [Jni_ReleaseStringUTFChars line chars] carries the pointer the release
    is given; [Jni_ThrowNew cls msg] is
    [env->ThrowNew(env->FindClass(cls), msg)]. *)
Inductive jni_call :=
| Jni_GetStringUTFChars (line : jni_line)
| Jni_ReleaseStringUTFChars (line : jni_line) (chars : option string)
| Jni_ThrowNew (cls msg : string)
| Jni_NewDoubleArray (size : Z)
| Jni_SetDoubleArrayRegion (start len : Z) (buf : list float).

(** The four calls every run starts with, and two classes of calls: those on
    a string, and those that deliver the result or the exception. *)
Definition get_and_release (l1 l2 : option string) : list jni_call :=
  [Jni_GetStringUTFChars Line1; Jni_GetStringUTFChars Line2;
   Jni_ReleaseStringUTFChars Line1 l1; Jni_ReleaseStringUTFChars Line2 l2].

Definition is_string_call (c : jni_call) : bool :=
  match c with
  | Jni_GetStringUTFChars _ | Jni_ReleaseStringUTFChars _ _ => true
  | _ => false
  end.

Definition is_delivery (c : jni_call) : bool :=
  match c with
  | Jni_ThrowNew _ _ | Jni_SetDoubleArrayRegion _ _ _ => true
  | _ => false
  end.

(** ** The wrapper *)

Section Wrapper.

Context {L : Sgp4Library}.

Record loop_state := {
  st_satrec : elsetrec;
  st_trajectory : list float;
  st_calls : list lib_call
}.

(** [strncpy(longstr, l, 129); longstr[129] = '\0';] *)
Definition strncpy129 (l : string) : string := substring 0 129 l.

Definition rad2deg : float := (180 / pi)%float.

(** Step 3: the number of sample points. *)
Definition total_points (durationHours stepMinutes : float) : option Z :=
  let totalMinutes := (durationHours * 60)%float in
  match CDouble.int_of_floor (totalMinutes / stepMinutes)%float with
  | None => None
  | Some steps =>
      let steps := if steps <? 0 then 0 else steps in
      match CInt.add steps 1 with
      | None => None
      | Some totalPoints =>
          match CInt.mul totalPoints 9 with
          | None => None
          | Some _ => Some totalPoints
          end
      end
  end.

(** The geodetic part of a sample: TEME to ECEF at [jdut1], then latitude
    and longitude in degrees and the altitude. *)
Definition geodetic (r v : vec3) (jdut1 : float) : list float :=
  let '(recef, vecef) := teme2ecef r v jdut1 in
  let latlongh := ijk2ll recef in
  [ (at0 latlongh * rad2deg)%float; (at1 latlongh * rad2deg)%float; at2 latlongh ].

(** One iteration of the loop of step 5; [false] when [sgp4] fails. *)
Definition loop_body (stepMinutes : float) (i : Z) (st : loop_state)
  : loop_state * bool :=
  let tsince := (CDouble.of_int i * stepMinutes)%float in
  let '(satrec, rv) := sgp4 wgs84 (st_satrec st) tsince in
  let calls := st_calls st ++ [Call_sgp4 tsince] in
  match rv with
  | None =>
      ({| st_satrec := satrec; st_trajectory := st_trajectory st; st_calls := calls |},
       false)
  | Some (r, v) =>
      let trajectory :=
        st_trajectory st ++ [at0 r; at1 r; at2 r; at0 v; at1 v; at2 v] in
      let jdut1 := (jdsatepoch satrec + tsince / 1440)%float in
      ({| st_satrec := satrec;
          st_trajectory := trajectory ++ geodetic r v jdut1;
          st_calls :=
            calls ++ [Call_teme2ecef jdut1;
                      Call_ijk2ll (fst (teme2ecef r v jdut1))] |},
       true)
  end.

(** [for (int i = i0; i < i0 + n; ++i)], leaving at the first failure
    with its index. *)
Fixpoint for_loop (stepMinutes : float) (n : nat) (i : Z) (st : loop_state)
  : loop_state * option Z :=
  match n with
  | O => (st, None)
  | S n' =>
      match loop_body stepMinutes i st with
      | (st', true) => for_loop stepMinutes n' (i + 1) st'
      | (st', false) => (st', Some i)
      end
  end.

(** The native method.  [l1] and [l2] are what [GetStringUTFChars] gave
    for the two lines ([None] is the null pointer).  The second component
    lists the calls the sampling loop made into the library.  The storage
    of [trajectory] is taken to be there: [reserve] and [push_back] do not
    fail. *)
Definition propagateFromTle (env : JNIEnv) (l1 l2 : option string)
    (durationHours stepMinutes : float) : outcome * list lib_call :=
  match l1, l2 with
  | Some l1, Some l2 =>
      let longstr1 := strncpy129 l1 in
      let longstr2 := strncpy129 l2 in
      let satrec := twoline2rv longstr1 longstr2 "c" "e" "i" wgs84 in
      if negb (error satrec =? 0) then
        (Threw IllegalArgumentException "Invalid TLE format", [])
      else
        match total_points durationHours stepMinutes with
        | None => (Undefined, [])
        | Some totalPoints =>
            let st0 := {| st_satrec := satrec; st_trajectory := []; st_calls := [] |} in
            match for_loop stepMinutes (Z.to_nat totalPoints) 0 st0 with
            | (st, Some i) =>
                (Threw RuntimeException
                   ("SGP4 propagation failed at step " ++ CInt.to_string i),
                 st_calls st)
            | (st, None) =>
                let arraySize := CInt.of_size_t (Z.of_nat (List.length (st_trajectory st))) in
                if NewDoubleArray env arraySize then
                  (Returned (st_trajectory st), st_calls st)
                else
                  (Threw OutOfMemoryError "Failed to allocate result array",
                   st_calls st)
            end
        end
  | _, _ => (Threw IllegalArgumentException "TLE lines cannot be null", [])
  end.

(** The calls of the native method on the JNI environment.  Every [return]
    of the source is preceded by the release of the two lines; where the
    conversion to [int] is undefined the list stops at what was called
    before it. *)
Definition jni_calls (env : JNIEnv) (l1 l2 : option string)
    (durationHours stepMinutes : float) : list jni_call :=
  let get := [Jni_GetStringUTFChars Line1; Jni_GetStringUTFChars Line2] in
  let release :=
    [Jni_ReleaseStringUTFChars Line1 l1; Jni_ReleaseStringUTFChars Line2 l2] in
  match l1, l2 with
  | Some s1, Some s2 =>
      let longstr1 := strncpy129 s1 in
      let longstr2 := strncpy129 s2 in
      let satrec := twoline2rv longstr1 longstr2 "c" "e" "i" wgs84 in
      if negb (error satrec =? 0) then
        get ++ release
        ++ [Jni_ThrowNew IllegalArgumentException "Invalid TLE format"]
      else
        match total_points durationHours stepMinutes with
        | None => get
        | Some totalPoints =>
            let st0 := {| st_satrec := satrec; st_trajectory := []; st_calls := [] |} in
            match for_loop stepMinutes (Z.to_nat totalPoints) 0 st0 with
            | (st, Some i) =>
                get ++ release
                ++ [Jni_ThrowNew RuntimeException
                      ("SGP4 propagation failed at step " ++ CInt.to_string i)]
            | (st, None) =>
                let arraySize := CInt.of_size_t (Z.of_nat (List.length (st_trajectory st))) in
                get ++ release ++ Jni_NewDoubleArray arraySize
                :: (if NewDoubleArray env arraySize then
                      [Jni_SetDoubleArrayRegion 0 arraySize (st_trajectory st)]
                    else
                      [Jni_ThrowNew OutOfMemoryError "Failed to allocate result array"])
            end
        end
  | _, _ =>
      get ++ release
      ++ [Jni_ThrowNew IllegalArgumentException "TLE lines cannot be null"]
  end.

(** *** What a run is compared with

    The record the library is given for sample [k] of a loop that starts
    at index [i] with record [s], the verdict of [sgp4] there, the nine
    numbers of the sample and the calls it makes. *)

Fixpoint satrec_from (stepMinutes : float) (i : Z) (s : elsetrec) (k : nat) : elsetrec :=
  match k with
  | O => s
  | S k' =>
      satrec_from stepMinutes (i + 1)
        (fst (sgp4 wgs84 s (CDouble.of_int i * stepMinutes)%float)) k'
  end.

Definition tsince_at (stepMinutes : float) (i : Z) (k : nat) : float :=
  (CDouble.of_int (i + Z.of_nat k) * stepMinutes)%float.

Definition sgp4_at (stepMinutes : float) (i : Z) (s : elsetrec) (k : nat)
  : elsetrec * option (vec3 * vec3) :=
  sgp4 wgs84 (satrec_from stepMinutes i s k) (tsince_at stepMinutes i k).

Definition ok_at (stepMinutes : float) (i : Z) (s : elsetrec) (k : nat) : bool :=
  match snd (sgp4_at stepMinutes i s k) with Some _ => true | None => false end.

Definition jdut1_at (stepMinutes : float) (i : Z) (s : elsetrec) (k : nat) : float :=
  (jdsatepoch (fst (sgp4_at stepMinutes i s k)) + tsince_at stepMinutes i k / 1440)%float.

(** The nine numbers of one sample, from the record handed to [sgp4] and
    the elapsed time. *)
Definition sample_fields (s : elsetrec) (tsince : float) : option (list float) :=
  match sgp4 wgs84 s tsince with
  | (s', Some (r, v)) =>
      Some ([at0 r; at1 r; at2 r; at0 v; at1 v; at2 v]
              ++ geodetic r v (jdsatepoch s' + tsince / 1440)%float)
  | (_, None) => None
  end.

Definition fields_at (stepMinutes : float) (i : Z) (s : elsetrec) (k : nat) : list float :=
  match sample_fields (satrec_from stepMinutes i s k) (tsince_at stepMinutes i k) with
  | Some f => f
  | None => []
  end.

Definition calls_at (stepMinutes : float) (i : Z) (s : elsetrec) (k : nat) : list lib_call :=
  Call_sgp4 (tsince_at stepMinutes i k)
  :: match snd (sgp4_at stepMinutes i s k) with
     | Some (r, v) =>
         [Call_teme2ecef (jdut1_at stepMinutes i s k);
          Call_ijk2ll (fst (teme2ecef r v (jdut1_at stepMinutes i s k)))]
     | None => []
     end.

(** The record [twoline2rv] builds from the two lines. *)
Definition parsed (l1 l2 : string) : elsetrec :=
  twoline2rv (strncpy129 l1) (strncpy129 l2) "c" "e" "i" wgs84.

(** Sample [k] of a flat array. *)
Definition sample (arr : list float) (k : nat) : list float :=
  firstn 9 (skipn (9 * k) arr).

(** The elapsed times handed to [sgp4] and the Julian dates handed to
    [teme2ecef], read off the calls of a run. *)
Definition sgp4_times (tr : list lib_call) : list float :=
  flat_map (fun c => match c with Call_sgp4 t => [t] | _ => [] end) tr.

Definition teme2ecef_dates (tr : list lib_call) : list float :=
  flat_map (fun c => match c with Call_teme2ecef jd => [jd] | _ => [] end) tr.

Definition failure_message (i : Z) : string :=
  "SGP4 propagation failed at step " ++ CInt.to_string i.

(** Modelled from the spec: [sgp4] itself is not among the sources.  The
    propagation state is mutated only during its one-time initialization,
    never thereafter: a sample call leaves the record as it found it. *)
Definition sgp4_leaves_record : Prop :=
  forall g s t, fst (sgp4 g s t) = s.

(** Modelled from the spec: [sgp4] itself is not among the sources.  The
    part of the above that the Julian date of a sample rests on: the epoch
    of the record is not rewritten by a sample call. *)
Definition sgp4_keeps_epoch : Prop :=
  forall g s t, jdsatepoch (fst (sgp4 g s t)) = jdsatepoch s.

(** *** The runs of the native method

    [run env D step l1 l2 res]: the native method, called with the lines
    [l1] and [l2], the duration [D] and the step [step], ends in [res].
    One constructor per way out of the function. *)

Definition run_trajectory (step : float) (s : elsetrec) (n : nat) : list float :=
  concat (map (fields_at step 0 s) (seq 0 n)).

Definition run_calls (step : float) (s : elsetrec) (n : nat) : list lib_call :=
  concat (map (calls_at step 0 s) (seq 0 n)).

Definition all_ok (step : float) (s : elsetrec) (n : nat) : Prop :=
  forall k, (k < n)%nat -> ok_at step 0 s k = true.

Definition first_failure (step : float) (s : elsetrec) (k : nat) : Prop :=
  all_ok step s k /\ ok_at step 0 s k = false.

Inductive run (env : JNIEnv) (D step : float)
  : option string -> option string -> outcome * list lib_call -> Prop :=
| run_null l1 l2 :
    l1 = None \/ l2 = None ->
    run env D step l1 l2
      (Threw IllegalArgumentException "TLE lines cannot be null", [])
| run_rejected l1 l2 :
    error (parsed l1 l2) <> 0 ->
    run env D step (Some l1) (Some l2)
      (Threw IllegalArgumentException "Invalid TLE format", [])
| run_undefined l1 l2 :
    error (parsed l1 l2) = 0 ->
    total_points D step = None ->
    run env D step (Some l1) (Some l2) (Undefined, [])
| run_failed l1 l2 n k :
    error (parsed l1 l2) = 0 ->
    total_points D step = Some n ->
    (k < Z.to_nat n)%nat ->
    first_failure step (parsed l1 l2) k ->
    run env D step (Some l1) (Some l2)
      (Threw RuntimeException (failure_message (Z.of_nat k)),
       run_calls step (parsed l1 l2) k ++ [Call_sgp4 (tsince_at step 0 k)])
| run_returned l1 l2 n :
    error (parsed l1 l2) = 0 ->
    total_points D step = Some n ->
    all_ok step (parsed l1 l2) (Z.to_nat n) ->
    NewDoubleArray env (9 * n) = true ->
    run env D step (Some l1) (Some l2)
      (Returned (run_trajectory step (parsed l1 l2) (Z.to_nat n)),
       run_calls step (parsed l1 l2) (Z.to_nat n))
| run_no_memory l1 l2 n :
    error (parsed l1 l2) = 0 ->
    total_points D step = Some n ->
    all_ok step (parsed l1 l2) (Z.to_nat n) ->
    NewDoubleArray env (9 * n) = false ->
    run env D step (Some l1) (Some l2)
      (Threw OutOfMemoryError "Failed to allocate result array",
       run_calls step (parsed l1 l2) (Z.to_nat n)).

End Wrapper.

(** ** A small library to run the wrapper on

    A stand-in for the SGP4 library: a line pair is accepted when both lines
    have 69 characters, the satellite moves on a straight line and is lost
    after [decay] minutes. *)

Module Stub.

Record rec := { s_error : Z; s_epoch : float; s_decay : float }.

Definition parse (decay : float) (l1 l2 : string) : rec :=
  {| s_error := if (String.length l1 =? 69)%nat && (String.length l2 =? 69)%nat
                then 0 else 4;
     s_epoch := 2451545;
     s_decay := decay |}.

Definition propagate (s : rec) (t : float) : rec * option (vec3 * vec3) :=
  (s, if (t <=? s_decay s)%float
      then Some (Vec3 (7000 + t) t 0, Vec3 0 7.5 0)
      else None).

Definition library (decay : float) : Sgp4Library := {|
  elsetrec := rec;
  error := s_error;
  jdsatepoch := s_epoch;
  pi := 0x1.921fb54442d18p+1%float;
  twoline2rv := fun l1 l2 _ _ _ _ => parse decay l1 l2;
  sgp4 := fun _ => propagate;
  teme2ecef := fun r v _ => (r, v);
  ijk2ll := fun r => Vec3 (at2 r) (at1 r / 7000) (at0 r - 6378)
|}.

Definition line1 : string :=
  "1 25544U 98067A   08264.51782528 -.00002182  00000-0 -11606-4 0  2927".
Definition line2 : string :=
  "2 25544  51.6416 247.4627 0006703 130.5360 325.0288 15.72125391563537".

(** A satellite lost after 1000 minutes, and one that is never lost. *)
Definition decaying : Sgp4Library := library 1000.
Definition lasting : Sgp4Library := library infinity.

(** The decaying satellite in a frame conversion that depends on its date:
    the Julian date shows as the third coordinate of the position. *)
Definition turning : Sgp4Library := {|
  elsetrec := rec;
  error := s_error;
  jdsatepoch := s_epoch;
  pi := 0x1.921fb54442d18p+1%float;
  twoline2rv := fun l1 l2 _ _ _ _ => parse 1000 l1 l2;
  sgp4 := fun _ => propagate;
  teme2ecef := fun r v jd => (Vec3 (at0 r) (at1 r) jd, v);
  ijk2ll := fun r => Vec3 (at2 r) (at1 r / 7000) (at0 r - 6378)
|}.

Definition env : JNIEnv := {| NewDoubleArray := fun _ => true |}.
Definition env_full : JNIEnv := {| NewDoubleArray := fun _ => false |}.

End Stub.

(** * Properties *)

(** ** Lists of nine-number samples *)

Lemma sample_concat (chunks : list (list float)) :
  (forall c, In c chunks -> List.length c = 9%nat) ->
  forall k, (k < List.length chunks)%nat ->
  sample (concat chunks) k = nth k chunks [].
Proof.
  unfold sample.
  induction chunks as [|c rest IH]; intros Hlen k Hk.
  - simpl in Hk. lia.
  - assert (Hc : List.length c = 9%nat) by (apply Hlen; now left).
    destruct k as [|k].
    + rewrite Nat.mul_0_r. cbn [skipn concat nth].
      rewrite firstn_app, Hc, Nat.sub_diag, firstn_O, app_nil_r.
      apply firstn_all2. lia.
    + cbn [concat nth].
      replace (9 * S k)%nat with (List.length c + 9 * k)%nat by lia.
      rewrite skipn_app, Nat.add_comm, Nat.add_sub.
      rewrite (skipn_all2 c) by lia.
      cbn [app]. apply IH.
      * intros c' Hc'. apply Hlen. now right.
      * simpl in Hk. lia.
Qed.

Lemma length_concat_nine (chunks : list (list float)) :
  (forall c, In c chunks -> List.length c = 9%nat) ->
  List.length (concat chunks) = (9 * List.length chunks)%nat.
Proof.
  induction chunks as [|c rest IH]; intros Hlen.
  - reflexivity.
  - cbn [concat List.length]. rewrite length_app, IH, (Hlen c).
    + lia.
    + now left.
    + intros c' Hc'. apply Hlen. now right.
Qed.

(** ** The sampling loop *)

Section LoopFacts.

Context {L : Sgp4Library}.
Variable step : float.

Lemma tsince_at_first i : tsince_at step i 0 = (CDouble.of_int i * step)%float.
Proof. unfold tsince_at. now rewrite Z.add_0_r. Qed.

Lemma tsince_at_next i k : tsince_at step i (S k) = tsince_at step (i + 1) k.
Proof. unfold tsince_at. do 2 f_equal. lia. Qed.

Lemma sgp4_at_next i s k :
  sgp4_at step i s (S k)
  = sgp4_at step (i + 1) (fst (sgp4 wgs84 s (CDouble.of_int i * step)%float)) k.
Proof. unfold sgp4_at. now rewrite tsince_at_next. Qed.

Lemma ok_at_next i s k :
  ok_at step i s (S k)
  = ok_at step (i + 1) (fst (sgp4 wgs84 s (CDouble.of_int i * step)%float)) k.
Proof. unfold ok_at. now rewrite sgp4_at_next. Qed.

Lemma fields_at_next i s k :
  fields_at step i s (S k)
  = fields_at step (i + 1) (fst (sgp4 wgs84 s (CDouble.of_int i * step)%float)) k.
Proof. unfold fields_at. now rewrite tsince_at_next. Qed.

Lemma calls_at_next i s k :
  calls_at step i s (S k)
  = calls_at step (i + 1) (fst (sgp4 wgs84 s (CDouble.of_int i * step)%float)) k.
Proof. unfold calls_at, jdut1_at. now rewrite sgp4_at_next, tsince_at_next. Qed.

Lemma map_seq_next {A} (f g : nat -> A) n :
  (forall k, f (S k) = g k) -> map f (seq 1 n) = map g (seq 0 n).
Proof.
  intros Hfg. rewrite <- seq_shift, map_map. apply map_ext. exact Hfg.
Qed.

Lemma geodetic_length r v jd : List.length (geodetic r v jd) = 3%nat.
Proof. unfold geodetic. now destruct (teme2ecef r v jd). Qed.

Lemma sample_fields_length s t f : sample_fields s t = Some f -> List.length f = 9%nat.
Proof.
  unfold sample_fields. destruct (sgp4 wgs84 s t) as [s' [[r v]|]]; [|discriminate].
  intros [= <-]. cbn [app List.length]. now rewrite geodetic_length.
Qed.

Lemma fields_at_length i s k :
  ok_at step i s k = true -> List.length (fields_at step i s k) = 9%nat.
Proof.
  unfold ok_at, sgp4_at, fields_at. intros Hok.
  destruct (sample_fields _ _) as [f|] eqn:Hf.
  - eapply sample_fields_length; eassumption.
  - unfold sample_fields in Hf.
    destruct (sgp4 wgs84 _ _) as [s' [[r v]|]]; discriminate.
Qed.

(** What the loop has done when it stops, either after [n] samples or at
    the first failing one. *)
Lemma for_loop_inv n : forall i st st' res,
  for_loop step n i st = (st', res) ->
  match res with
  | None =>
      (forall k, (k < n)%nat -> ok_at step i (st_satrec st) k = true) /\
      st_satrec st' = satrec_from step i (st_satrec st) n /\
      st_trajectory st'
      = st_trajectory st ++ concat (map (fields_at step i (st_satrec st)) (seq 0 n)) /\
      st_calls st'
      = st_calls st ++ concat (map (calls_at step i (st_satrec st)) (seq 0 n))
  | Some j =>
      exists k, (k < n)%nat /\ j = i + Z.of_nat k /\
        (forall k', (k' < k)%nat -> ok_at step i (st_satrec st) k' = true) /\
        ok_at step i (st_satrec st) k = false /\
        st_satrec st' = fst (sgp4_at step i (st_satrec st) k) /\
        st_trajectory st'
        = st_trajectory st ++ concat (map (fields_at step i (st_satrec st)) (seq 0 k)) /\
        st_calls st'
        = st_calls st ++ concat (map (calls_at step i (st_satrec st)) (seq 0 k))
            ++ [Call_sgp4 (tsince_at step i k)]
  end.
Proof.
  induction n as [|n IH]; intros i st st' res Hrun.
  - cbn in Hrun. injection Hrun as <- <-.
    cbn. rewrite !app_nil_r. repeat split. intros k Hk. lia.
  - cbn [for_loop] in Hrun.
    destruct (loop_body step i st) as [st1 b] eqn:Hbody.
    unfold loop_body in Hbody.
    destruct (sgp4 wgs84 (st_satrec st) (CDouble.of_int i * step)%float)
      as [s1 rv] eqn:Hcall.
    assert (Hs1 : fst (sgp4 wgs84 (st_satrec st) (CDouble.of_int i * step)%float) = s1)
      by now rewrite Hcall.
    assert (Hok0 : ok_at step i (st_satrec st) 0
                   = match rv with Some _ => true | None => false end).
    { unfold ok_at, sgp4_at. cbn [satrec_from]. now rewrite tsince_at_first, Hcall. }
    destruct rv as [[r v]|].
    + injection Hbody as <- <-.
      apply IH in Hrun. cbn [st_satrec st_trajectory st_calls] in Hrun.
      assert (Hf0 : fields_at step i (st_satrec st) 0
                    = [at0 r; at1 r; at2 r; at0 v; at1 v; at2 v]
                        ++ geodetic r v (jdsatepoch s1 + CDouble.of_int i * step / 1440)%float).
      { unfold fields_at, sample_fields. cbn [satrec_from].
        now rewrite tsince_at_first, Hcall. }
      assert (Hc0 : calls_at step i (st_satrec st) 0
                    = [Call_sgp4 (CDouble.of_int i * step)%float;
                       Call_teme2ecef (jdsatepoch s1 + CDouble.of_int i * step / 1440)%float;
                       Call_ijk2ll
                         (fst (teme2ecef r v
                                 (jdsatepoch s1 + CDouble.of_int i * step / 1440)%float))]).
      { unfold calls_at, jdut1_at, sgp4_at. cbn [satrec_from].
        now rewrite tsince_at_first, Hcall. }
      assert (Hfs : forall m, map (fields_at step i (st_satrec st)) (seq 1 m)
                              = map (fields_at step (i + 1) s1) (seq 0 m)).
      { intros m. apply map_seq_next. intros k. now rewrite fields_at_next, Hs1. }
      assert (Hcs : forall m, map (calls_at step i (st_satrec st)) (seq 1 m)
                              = map (calls_at step (i + 1) s1) (seq 0 m)).
      { intros m. apply map_seq_next. intros k. now rewrite calls_at_next, Hs1. }
      destruct res as [j|].
      * destruct Hrun as (k & Hk & Hj & Hbefore & Hfail & Hrec & Htraj & Hcalls).
        exists (S k). repeat split.
        -- lia.
        -- lia.
        -- intros [|k'] Hk'; [exact Hok0|].
           rewrite ok_at_next, Hs1. apply Hbefore. lia.
        -- now rewrite ok_at_next, Hs1.
        -- now rewrite sgp4_at_next, Hs1.
        -- rewrite Htraj. cbn [seq map concat]. rewrite Hfs, Hf0.
           now rewrite <- !app_assoc.
        -- rewrite Hcalls. cbn [seq map concat]. rewrite Hcs, Hc0, tsince_at_next.
           now rewrite <- !app_assoc.
      * destruct Hrun as (Hall & Hrec & Htraj & Hcalls).
        repeat split.
        -- intros [|k] Hk; [exact Hok0|].
           rewrite ok_at_next, Hs1. apply Hall. lia.
        -- cbn [satrec_from]. now rewrite Hs1.
        -- rewrite Htraj. cbn [seq map concat]. rewrite Hfs, Hf0.
           now rewrite <- !app_assoc.
        -- rewrite Hcalls. cbn [seq map concat]. rewrite Hcs, Hc0.
           now rewrite <- !app_assoc.
    + injection Hbody as <- <-. injection Hrun as <- <-.
      exists 0%nat. cbn [st_satrec st_trajectory st_calls seq map concat].
      rewrite tsince_at_first, app_nil_r. repeat split.
      * lia.
      * lia.
      * intros k' Hk'. lia.
      * exact Hok0.
      * unfold sgp4_at. cbn [satrec_from]. now rewrite tsince_at_first, Hcall.
  Qed.

End LoopFacts.

(** ** C++ arithmetic *)

Lemma of_size_t_small n : 0 <= n <= CInt.INT_MAX -> CInt.of_size_t n = n.
Proof.
  unfold CInt.of_size_t, CInt.INT_MAX. intros Hn.
  rewrite Z.mod_small; lia.
Qed.

Lemma checked_some z r :
  CInt.checked z = Some r <-> r = z /\ CInt.INT_MIN <= z <= CInt.INT_MAX.
Proof.
  unfold CInt.checked, CInt.in_range.
  destruct (CInt.INT_MIN <=? z) eqn:Hlo, (z <=? CInt.INT_MAX) eqn:Hhi; cbn;
    try apply Z.leb_le in Hlo; try apply Z.leb_le in Hhi;
    try apply Z.leb_gt in Hlo; try apply Z.leb_gt in Hhi;
    split; try discriminate; try (intros [= <-]; lia); try (intros [-> ?]; reflexivity);
    intros [_ ?]; lia.
Qed.

Lemma to_string_inj i j : CInt.to_string i = CInt.to_string j -> i = j.
Proof.
  unfold CInt.to_string. intros Heq.
  apply DecimalZ.to_int_inj.
  assert (Hnn : forall z, Z.to_int z <> Decimal.Pos Decimal.Nil
                          /\ Z.to_int z <> Decimal.Neg Decimal.Nil).
  { intros [|p|p]; cbn; split; try discriminate;
      intros [= Hp]; now apply (DecimalPos.Unsigned.to_uint_nonnil p). }
  assert (Hsome : Some (Z.to_int i) = Some (Z.to_int j)).
  { rewrite <- (NilZero.isi (Z.to_int i)), <- (NilZero.isi (Z.to_int j));
      try apply Hnn. now rewrite Heq. }
  now injection Hsome.
Qed.

Lemma failure_message_inj i j : failure_message i = failure_message j -> i = j.
Proof.
  unfold failure_message. cbn [String.append]. intros Heq.
  apply to_string_inj. now injection Heq.
Qed.

(** ** Signs through the binary64 operations *)

Lemma sf_signed_sign_in b x : sf_signed b x -> sf_sign_in b x.
Proof. destruct x; cbn; tauto. Qed.

Lemma binary_round_aux_sign s m e l :
  sf_sign_in s (binary_round_aux prec emax s m e l).
Proof.
  unfold binary_round_aux.
  destruct (shr_fexp prec emax m e l) as [mrs' e'].
  destruct (shr_fexp prec emax _ e' loc_Exact) as [mrs'' e''].
  destruct (shr_m mrs''); cbn; trivial.
  match goal with |- context [if ?c then _ else _] => destruct c end; cbn; trivial.
Qed.

Lemma SFmul_sign a b x y :
  sf_sign_in a x -> sf_signed b y -> sf_sign_in (xorb a b) (SFmul prec emax x y).
Proof.
  destruct x as [sx|sx| |sx mx ex], y as [sy|sy| |sy my ey]; cbn;
    try tauto; try congruence.
  intros -> ->. apply binary_round_aux_sign.
Qed.

Lemma SFdiv_sign a b x y :
  sf_sign_in a x -> sf_signed b y -> sf_sign_in (xorb a b) (SFdiv prec emax x y).
Proof.
  destruct x as [sx|sx| |sx mx ex], y as [sy|sy| |sy my ey];
    cbn -[SFdiv_core_binary]; try tauto; try congruence.
  intros -> ->.
  destruct (SFdiv_core_binary prec emax (Z.pos mx) ex (Z.pos my) ey) as [[mz ez] lz].
  apply binary_round_aux_sign.
Qed.

Lemma leb_zero_sign x : (0 <=? x)%float = true -> sf_sign_in false (Prim2SF x).
Proof.
  rewrite leb_spec. change (Prim2SF 0) with (S754_zero false).
  destruct (Prim2SF x) as [s|[|]| |[|] m e]; cbn; intros H;
    first [exact I | reflexivity | discriminate].
Qed.

Lemma ltb_zero_sign x : (0 <? x)%float = true -> sf_signed false (Prim2SF x).
Proof.
  rewrite ltb_spec. change (Prim2SF 0) with (S754_zero false).
  destruct (Prim2SF x) as [s|[|]| |[|] m e]; cbn; intros H;
    first [exact I | reflexivity | discriminate].
Qed.

Lemma ltb_sign_zero x : (x <? 0)%float = true -> sf_signed true (Prim2SF x).
Proof.
  rewrite ltb_spec. change (Prim2SF 0) with (S754_zero false).
  destruct (Prim2SF x) as [s|[|]| |[|] m e]; cbn; intros H;
    first [exact I | reflexivity | discriminate].
Qed.

Lemma floor_value_sign b x n :
  sf_sign_in b (Prim2SF x) -> CDouble.floor_value x = Some n ->
  if b then n <= 0 else 0 <= n.
Proof.
  unfold CDouble.floor_value.
  destruct (Prim2SF x) as [s|s| |s m e]; cbn; try discriminate.
  - intros _ [= <-]. destruct b; lia.
  - intros -> [= <-]. destruct b; cbn.
    + pose proof (Z.shiftl_nonneg (Z.neg m) e). lia.
    + apply Z.shiftl_nonneg. lia.
Qed.

(** The sign of [D * 60 / S]. *)
Lemma quotient_sign a b D S :
  sf_sign_in a (Prim2SF D) -> sf_signed b (Prim2SF S) ->
  sf_sign_in (xorb a b) (Prim2SF (D * 60 / S)).
Proof.
  intros HD HS. rewrite div_spec, FloatAxioms.mul_spec.
  replace (xorb a b) with (xorb (xorb a false) b) by now destruct a.
  apply SFdiv_sign; [|exact HS]. apply SFmul_sign; [exact HD|].
  now vm_compute.
Qed.

(** Zero times a finite positive step is zero. *)
Lemma zero_times_finite S :
  (0 <? S)%float = true -> (S <? infinity)%float = true ->
  (CDouble.of_int 0 * S)%float = 0%float.
Proof.
  intros Hpos Hfin. apply Prim2SF_inj.
  rewrite FloatAxioms.mul_spec.
  change (Prim2SF (CDouble.of_int 0)) with (S754_zero false).
  change (Prim2SF 0) with (S754_zero false).
  rewrite ltb_spec in Hpos, Hfin.
  change (Prim2SF 0) with (S754_zero false) in Hpos.
  change (Prim2SF infinity) with (S754_infinity false) in Hfin.
  destruct (Prim2SF S) as [s|[|]| |[|] m e]; cbn in *; congruence.
Qed.

(** ** The number of sample points *)

Section Points.

Context {L : Sgp4Library}.

Lemma total_points_spec D step n :
  total_points D step = Some n <->
  exists z, CDouble.floor_value (D * 60 / step) = Some z
            /\ CInt.INT_MIN <= z /\ n = Z.max 0 z + 1 /\ n <= 238609294.
Proof.
  unfold total_points, CDouble.int_of_floor, CInt.add, CInt.mul.
  destruct (CDouble.floor_value (D * 60 / step)) as [z|].
  - destruct (CInt.checked z) as [steps|] eqn:Hz.
    + apply checked_some in Hz. destruct Hz as [-> Hz].
      destruct (CInt.checked ((if z <? 0 then 0 else z) + 1)) as [tp|] eqn:Htp.
      * apply checked_some in Htp. destruct Htp as [-> Htp].
        destruct (CInt.checked (((if z <? 0 then 0 else z) + 1) * 9)) as [r|] eqn:Hr.
        -- apply checked_some in Hr. destruct Hr as [-> Hr].
           unfold CInt.INT_MIN, CInt.INT_MAX in *.
           split.
           ++ intros [= <-]. exists z. destruct (Z.ltb_spec z 0); repeat split; lia.
           ++ intros (z' & [= <-] & ? & -> & ?). f_equal. destruct (Z.ltb_spec z 0); lia.
        -- split; [discriminate|]. intros (z' & [= <-] & ? & -> & Hn).
           assert (Hsome : exists r, CInt.checked (((if z <? 0 then 0 else z) + 1) * 9) = Some r).
           { eexists. apply checked_some. split; [reflexivity|].
             unfold CInt.INT_MIN, CInt.INT_MAX. destruct (Z.ltb_spec z 0); lia. }
           destruct Hsome as [r Hsome]. congruence.
      * split; [discriminate|]. intros (z' & [= <-] & ? & -> & Hn).
        assert (Hsome : exists r, CInt.checked ((if z <? 0 then 0 else z) + 1) = Some r).
        { eexists. apply checked_some. split; [reflexivity|].
          unfold CInt.INT_MIN, CInt.INT_MAX. destruct (Z.ltb_spec z 0); lia. }
        destruct Hsome as [r Hsome]. congruence.
    + split; [discriminate|]. intros (z' & [= <-] & Hlo & -> & Hn).
      assert (Hsome : exists r, CInt.checked z = Some r).
      { eexists. apply checked_some. split; [reflexivity|].
        unfold CInt.INT_MIN, CInt.INT_MAX in *. lia. }
      destruct Hsome as [r Hsome]. congruence.
  - split; [discriminate|]. intros (z' & [=] & _).
Qed.

Lemma total_points_range D step n :
  total_points D step = Some n -> 1 <= n <= 238609294.
Proof.
  intros H. apply total_points_spec in H. destruct H as (z & _ & _ & -> & ?). lia.
Qed.

End Points.

(** ** Every call is one of the runs *)

Section Runs.

Context {L : Sgp4Library}.

Lemma run_trajectory_length step s n :
  all_ok step s n -> List.length (run_trajectory step s n) = (9 * n)%nat.
Proof.
  intros Hok. unfold run_trajectory.
  rewrite length_concat_nine.
  - now rewrite length_map, length_seq.
  - intros c Hc. apply in_map_iff in Hc. destruct Hc as (k & <- & Hk).
    apply in_seq in Hk. apply fields_at_length. apply Hok. lia.
Qed.

Lemma run_trajectory_sample step s n k :
  all_ok step s n -> (k < n)%nat ->
  sample (run_trajectory step s n) k = fields_at step 0 s k.
Proof.
  intros Hok Hk. unfold run_trajectory.
  rewrite sample_concat.
  - rewrite (nth_indep _ [] (fields_at step 0 s 0%nat)) by now rewrite length_map, length_seq.
    now rewrite map_nth, seq_nth.
  - intros c Hc. apply in_map_iff in Hc. destruct Hc as (j & <- & Hj).
    apply in_seq in Hj. apply fields_at_length. apply Hok. lia.
  - now rewrite length_map, length_seq.
Qed.

Lemma sgp4_times_run_calls step s n :
  sgp4_times (run_calls step s n) = map (tsince_at step 0) (seq 0 n).
Proof.
  unfold run_calls, sgp4_times. generalize (seq 0 n) as ks.
  induction ks as [|k ks IH]; [reflexivity|].
  cbn [map concat]. rewrite flat_map_app, IH. unfold calls_at.
  destruct (snd (sgp4_at step 0 s k)) as [[r v]|]; reflexivity.
Qed.

(** The calls of a sample that [sgp4] propagates. *)
Lemma calls_at_ok step s k :
  ok_at step 0 s k = true ->
  exists r v,
    snd (sgp4_at step 0 s k) = Some (r, v)
    /\ calls_at step 0 s k
       = [Call_sgp4 (tsince_at step 0 k);
          Call_teme2ecef (jdut1_at step 0 s k);
          Call_ijk2ll (fst (teme2ecef r v (jdut1_at step 0 s k)))].
Proof.
  unfold ok_at, calls_at.
  destruct (snd (sgp4_at step 0 s k)) as [[r v]|]; [|discriminate].
  intros _. now exists r, v.
Qed.

Lemma teme2ecef_dates_run_calls step s n :
  all_ok step s n ->
  teme2ecef_dates (run_calls step s n) = map (jdut1_at step 0 s) (seq 0 n).
Proof.
  unfold run_calls, teme2ecef_dates, all_ok. intros Hall.
  assert (Hks : forall k, In k (seq 0 n) -> ok_at step 0 s k = true).
  { intros k Hk. apply in_seq in Hk. apply Hall. lia. }
  revert Hks. generalize (seq 0 n) as ks.
  induction ks as [|k ks IH]; intros Hks; [reflexivity|].
  cbn [map concat]. rewrite flat_map_app, IH by (intros j Hj; apply Hks; now right).
  destruct (@calls_at_ok step s k (Hks k (or_introl eq_refl))) as (r & v & _ & ->).
  reflexivity.
Qed.

Theorem propagateFromTle_run env l1 l2 D step :
  run env D step l1 l2 (propagateFromTle env l1 l2 D step).
Proof.
  unfold propagateFromTle.
  destruct l1 as [s1|]; [destruct l2 as [s2|]|]; try (apply run_null; now auto).
  fold (parsed s1 s2).
  destruct (error (parsed s1 s2) =? 0) eqn:Herr; cbn [negb].
  - apply Z.eqb_eq in Herr.
    destruct (total_points D step) as [n|] eqn:Hn; [|now apply run_undefined].
    destruct (for_loop step (Z.to_nat n) 0 _) as [st res] eqn:Hloop.
    apply for_loop_inv in Hloop. cbn [st_satrec st_trajectory st_calls app] in Hloop.
    destruct res as [j|].
    + destruct Hloop as (k & Hk & -> & Hbefore & Hfail & _ & _ & ->).
      rewrite Z.add_0_l. now apply run_failed with (n := n).
    + destruct Hloop as (Hall & _ & Htraj & Hcalls).
      fold (run_trajectory step (parsed s1 s2) (Z.to_nat n)) in Htraj.
      fold (run_calls step (parsed s1 s2) (Z.to_nat n)) in Hcalls.
      rewrite Htraj, Hcalls, run_trajectory_length by exact Hall.
      pose proof (total_points_range _ _ Hn) as Hrange.
      replace (Z.of_nat (9 * Z.to_nat n)) with (9 * n) by lia.
      rewrite of_size_t_small by (unfold CInt.INT_MAX; lia).
      destruct (NewDoubleArray env (9 * n)) eqn:Halloc.
      * now apply run_returned.
      * now apply run_no_memory.
  - apply Z.eqb_neq in Herr. now apply run_rejected.
Qed.

(** The ways out exclude one another: the hypotheses of a constructor
    determine the result. *)

Lemma first_failure_unique step s k k' :
  first_failure step s k -> first_failure step s k' -> k = k'.
Proof.
  intros [Hb Hf] [Hb' Hf'].
  destruct (Nat.lt_trichotomy k k') as [Hlt|[Heq|Hgt]]; [|exact Heq|].
  - specialize (Hb' k Hlt). congruence.
  - specialize (Hb k' Hgt). congruence.
Qed.

Lemma run_of_failure env l1 l2 D step n k :
  error (parsed l1 l2) = 0 ->
  total_points D step = Some n ->
  (k < Z.to_nat n)%nat ->
  first_failure step (parsed l1 l2) k ->
  propagateFromTle env (Some l1) (Some l2) D step
  = (Threw RuntimeException (failure_message (Z.of_nat k)),
     run_calls step (parsed l1 l2) k ++ [Call_sgp4 (tsince_at step 0 k)]).
Proof.
  intros Herr Hn Hk Hfail.
  pose proof (propagateFromTle_run env (Some l1) (Some l2) D step) as Hrun.
  remember (propagateFromTle env (Some l1) (Some l2) D step) as res eqn:Hres.
  clear Hres.
  inversion Hrun as [? ? [?|?]| |? ? ? Hnone|? ? n' k' ? Hn' ? Hfail'
                     |? ? n' ? Hn' Hall|? ? n' ? Hn' Hall]; subst;
    try discriminate; try contradiction; try congruence.
  - now rewrite (first_failure_unique Hfail Hfail').
  - assert (n' = n) by congruence. subst n'.
    destruct Hfail as [_ Hf]. rewrite (Hall k Hk) in Hf. discriminate.
  - assert (n' = n) by congruence. subst n'.
    destruct Hfail as [_ Hf]. rewrite (Hall k Hk) in Hf. discriminate.
Qed.

Lemma run_of_success env l1 l2 D step n :
  error (parsed l1 l2) = 0 ->
  total_points D step = Some n ->
  all_ok step (parsed l1 l2) (Z.to_nat n) ->
  propagateFromTle env (Some l1) (Some l2) D step
  = if NewDoubleArray env (9 * n)
    then (Returned (run_trajectory step (parsed l1 l2) (Z.to_nat n)),
          run_calls step (parsed l1 l2) (Z.to_nat n))
    else (Threw OutOfMemoryError "Failed to allocate result array",
          run_calls step (parsed l1 l2) (Z.to_nat n)).
Proof.
  intros Herr Hn Hall.
  pose proof (propagateFromTle_run env (Some l1) (Some l2) D step) as Hrun.
  remember (propagateFromTle env (Some l1) (Some l2) D step) as res eqn:Hres.
  clear Hres.
  inversion Hrun as [? ? [?|?]| |? ? ? Hnone|? ? n' k' ? Hn' Hk' Hfail'
                     |? ? n' ? Hn' Hall' Halloc|? ? n' ? Hn' Hall' Halloc]; subst;
    try discriminate; try contradiction; try congruence.
  - assert (n' = n) by congruence. subst n'.
    destruct Hfail' as [_ Hf]. rewrite (Hall k' Hk') in Hf. discriminate.
  - assert (n' = n) by congruence. subst n'. now rewrite Halloc.
  - assert (n' = n) by congruence. subst n'. now rewrite Halloc.
Qed.

End Runs.

(** ** The properties of the specification *)

Section Claims.

Context {L : Sgp4Library}.

Lemma all_ok_forallb step s n :
  forallb (ok_at step 0 s) (seq 0 n) = true -> all_ok step s n.
Proof.
  intros Hall k Hk. rewrite forallb_forall in Hall. apply Hall.
  apply in_seq. lia.
Qed.

Lemma run_returned_inv env l1 l2 D step arr tr :
  propagateFromTle env l1 l2 D step = (Returned arr, tr) ->
  exists s1 s2 n,
    l1 = Some s1 /\ l2 = Some s2 /\ error (parsed s1 s2) = 0 /\
    total_points D step = Some n /\ all_ok step (parsed s1 s2) (Z.to_nat n) /\
    NewDoubleArray env (9 * n) = true /\
    arr = run_trajectory step (parsed s1 s2) (Z.to_nat n) /\
    tr = run_calls step (parsed s1 s2) (Z.to_nat n).
Proof.
  intros Hres. pose proof (propagateFromTle_run env l1 l2 D step) as Hrun.
  rewrite Hres in Hrun.
  inversion Hrun as [| | | |s1 s2 n Herr Hn Hall Halloc|]; subst.
  exists s1, s2, n. repeat split; assumption.
Qed.

Lemma sgp4_times_failed step s k :
  sgp4_times (run_calls step s k ++ [Call_sgp4 (tsince_at step 0 k)])
  = map (tsince_at step 0) (seq 0 (S k)).
Proof.
  unfold sgp4_times at 1. rewrite flat_map_app.
  fold (sgp4_times (run_calls step s k)). rewrite sgp4_times_run_calls.
  rewrite seq_S, map_app. reflexivity.
Qed.

Lemma satrec_from_pure step :
  sgp4_leaves_record -> forall k i s, satrec_from step i s k = s.
Proof.
  intros Hpure. induction k as [|k IH]; intros i s; [reflexivity|].
  cbn [satrec_from]. now rewrite IH, Hpure.
Qed.

Lemma satrec_from_epoch step :
  sgp4_keeps_epoch ->
  forall k i s, jdsatepoch (satrec_from step i s k) = jdsatepoch s.
Proof.
  intros Hkeep. induction k as [|k IH]; intros i s; [reflexivity|].
  cbn [satrec_from]. now rewrite IH, Hkeep.
Qed.

Lemma fields_at_sample_fields step s k :
  ok_at step 0 s k = true ->
  sample_fields (satrec_from step 0 s k) (tsince_at step 0 k)
  = Some (fields_at step 0 s k).
Proof.
  unfold ok_at, sgp4_at, fields_at, sample_fields.
  destruct (sgp4 wgs84 _ _) as [s' [[r v]|]]; [reflexivity|discriminate].
Qed.

(** C5.  A pair of lines for which the parser reports an error makes the
    call end in an invalid-input exception, and the sampling loop has made
    no call into the library: nothing was propagated, nothing was stored. *)
Theorem rejected_tle_fails_before_propagation env l1 l2 D step :
  error (parsed l1 l2) <> 0 ->
  propagateFromTle env (Some l1) (Some l2) D step
  = (Threw IllegalArgumentException "Invalid TLE format", []).
Proof.
  intros Herr.
  pose proof (propagateFromTle_run env (Some l1) (Some l2) D step) as Hrun.
  remember (propagateFromTle env (Some l1) (Some l2) D step) as res eqn:Hres.
  clear Hres.
  inversion Hrun as [? ? [?|?]| | | | | ]; subst; try discriminate; try contradiction.
  reflexivity.
Qed.

(** C3.  When [sgp4] fails for the first time at sample [k] of a run, the
    call ends in a runtime exception whose message carries [k] (and no
    other index gives that message); no array is returned, and the failing
    call is the last of the [k + 1] propagations made. *)
Theorem propagation_failure_aborts env l1 l2 D step n k :
  error (parsed l1 l2) = 0 ->
  total_points D step = Some n ->
  (k < Z.to_nat n)%nat ->
  first_failure step (parsed l1 l2) k ->
  let res := propagateFromTle env (Some l1) (Some l2) D step in
  fst res = Threw RuntimeException (failure_message (Z.of_nat k))
  /\ (forall j, failure_message j = failure_message (Z.of_nat k) -> j = Z.of_nat k)
  /\ (forall arr, fst res <> Returned arr)
  /\ sgp4_times (snd res) = map (tsince_at step 0) (seq 0 (S k)).
Proof.
  intros Herr Hn Hk Hfail res. subst res.
  rewrite (run_of_failure env _ _ _ Herr Hn Hk Hfail). cbn [fst snd].
  repeat split.
  - intros j. apply failure_message_inj.
  - discriminate.
  - apply sgp4_times_failed.
Qed.

(** C6.  The array of a successful call holds nine numbers per sample
    point; sample [k] is the position and the velocity [sgp4] returned,
    in this order, then the latitude and the longitude of [ijk2ll]
    multiplied by [180 / pi], then its altitude. *)
Theorem sample_layout env l1 l2 D step arr tr :
  propagateFromTle env l1 l2 D step = (Returned arr, tr) ->
  exists s1 s2 n,
    l1 = Some s1 /\ l2 = Some s2 /\ total_points D step = Some n /\
    Z.of_nat (List.length arr) = 9 * n /\
    forall k, (k < Z.to_nat n)%nat ->
      exists s' r v,
        sgp4_at step 0 (parsed s1 s2) k = (s', Some (r, v)) /\
        let jdut1 := (jdsatepoch s' + tsince_at step 0 k / 1440)%float in
        let latlongh := ijk2ll (fst (teme2ecef r v jdut1)) in
        sample arr k
        = [at0 r; at1 r; at2 r; at0 v; at1 v; at2 v;
           (at0 latlongh * (180 / pi))%float;
           (at1 latlongh * (180 / pi))%float;
           at2 latlongh].
Proof.
  intros Hres. apply run_returned_inv in Hres.
  destruct Hres as (s1 & s2 & n & -> & -> & Herr & Hn & Hall & Halloc & -> & ->).
  exists s1, s2, n. repeat split; try assumption.
  - rewrite run_trajectory_length by exact Hall.
    pose proof (total_points_range _ _ Hn). lia.
  - intros k Hk. rewrite run_trajectory_sample by assumption.
    specialize (Hall k Hk). unfold ok_at in Hall.
    unfold fields_at, sample_fields. fold (sgp4_at step 0 (parsed s1 s2) k).
    destruct (sgp4_at step 0 (parsed s1 s2) k) as [s' [[r v]|]]; [|discriminate].
    exists s', r, v. split; [reflexivity|].
    cbn zeta. unfold geodetic.
    destruct (teme2ecef r v _) as [recef vecef]. reflexivity.
Qed.





(** C10.  In a successful call the frame conversion of sample [k] is made
    at the Julian date [jdsatepoch + k * stepMinutes / 1440]: [teme2ecef]
    is handed that date together with the state [sgp4] returned for the
    sample, and the latitude, longitude and altitude stored for the sample
    are those [ijk2ll] gives for the position [teme2ecef] computed at that
    date.  [jdsatepoch] is read in the record [sgp4] has just left; it is
    the epoch of the parsed lines when [sgp4] does not rewrite that
    field. *)
Theorem frame_conversion_date env l1 l2 D step arr tr :
  propagateFromTle env l1 l2 D step = (Returned arr, tr) ->
  exists s1 s2 n,
    l1 = Some s1 /\ l2 = Some s2 /\ total_points D step = Some n /\
    List.length (teme2ecef_dates tr) = Z.to_nat n /\
    forall k, (k < Z.to_nat n)%nat ->
      exists s' r v,
        sgp4_at step 0 (parsed s1 s2) k = (s', Some (r, v)) /\
        let tsince := (CDouble.of_int (Z.of_nat k) * step)%float in
        let jdut1 := (jdsatepoch s' + tsince / 1440)%float in
        let latlongh := ijk2ll (fst (teme2ecef r v jdut1)) in
        nth k (teme2ecef_dates tr) nan = jdut1
        /\ skipn 6 (sample arr k)
           = [(at0 latlongh * (180 / pi))%float;
              (at1 latlongh * (180 / pi))%float;
              at2 latlongh]
        /\ (sgp4_keeps_epoch ->
            jdut1 = (jdsatepoch (parsed s1 s2) + tsince / 1440)%float).
Proof.
  intros Hres. apply run_returned_inv in Hres.
  destruct Hres as (s1 & s2 & n & -> & -> & Herr & Hn & Hall & Halloc & -> & ->).
  exists s1, s2, n. repeat split; try assumption.
  - now rewrite teme2ecef_dates_run_calls, length_map, length_seq.
  - intros k Hk.
    rewrite teme2ecef_dates_run_calls, run_trajectory_sample by assumption.
    rewrite (nth_indep _ nan (jdut1_at step 0 (parsed s1 s2) 0%nat))
      by now rewrite length_map, length_seq.
    rewrite map_nth, seq_nth by assumption. cbn [Nat.add].
    pose proof (Hall k Hk) as Hok. unfold ok_at in Hok.
    unfold jdut1_at, fields_at, sample_fields.
    fold (sgp4_at step 0 (parsed s1 s2) k).
    unfold tsince_at. rewrite Z.add_0_l.
    assert (Hfst : forall Hkeep : sgp4_keeps_epoch,
               jdsatepoch (fst (sgp4_at step 0 (parsed s1 s2) k))
               = jdsatepoch (parsed s1 s2)).
    { intros Hkeep. unfold sgp4_at. now rewrite Hkeep, satrec_from_epoch. }
    destruct (sgp4_at step 0 (parsed s1 s2) k) as [s' [[r v]|]]; [|discriminate].
    exists s', r, v. split; [reflexivity|]. cbn zeta. cbn [fst] in *.
    split; [reflexivity|]. split.
    + unfold geodetic. destruct (teme2ecef r v _) as [recef vecef]. reflexivity.
    + intros Hkeep. now rewrite (Hfst Hkeep).
Qed.

(** C8.  When [sgp4] leaves the record as it found it, the nine numbers of
    a sample are a function ([sample_fields]) of the parsed record and of
    the elapsed time alone: two samples, of one run or of two, computed
    from the same record at the same elapsed time are equal, and the
    record handed to [sgp4] is the parsed one at every sample. *)
Theorem sample_is_function_of_record_and_time
    env env' a1 a2 b1 b2 D D' step step' arr tr arr' tr' k k' :
  sgp4_leaves_record ->
  propagateFromTle env (Some a1) (Some a2) D step = (Returned arr, tr) ->
  propagateFromTle env' (Some b1) (Some b2) D' step' = (Returned arr', tr') ->
  parsed a1 a2 = parsed b1 b2 ->
  (9 * k < List.length arr)%nat ->
  (9 * k' < List.length arr')%nat ->
  tsince_at step 0 k = tsince_at step' 0 k' ->
  sample_fields (parsed a1 a2) (tsince_at step 0 k) = Some (sample arr k)
  /\ sample arr k = sample arr' k'
  /\ satrec_from step 0 (parsed a1 a2) k = parsed a1 a2.
Proof.
  intros Hpure Hres Hres' Hrec Hk Hk' Ht.
  apply run_returned_inv in Hres, Hres'.
  destruct Hres as (s1 & s2 & n & [= <-] & [= <-] & _ & _ & Hall & _ & -> & _).
  destruct Hres' as (t1 & t2 & n' & [= <-] & [= <-] & _ & _ & Hall' & _ & -> & _).
  rewrite run_trajectory_length in Hk, Hk' by assumption.
  assert (Hkn : (k < Z.to_nat n)%nat) by lia.
  assert (Hkn' : (k' < Z.to_nat n')%nat) by lia.
  rewrite !run_trajectory_sample by assumption.
  pose proof (fields_at_sample_fields _ _ _ (Hall k Hkn)) as Hf.
  pose proof (fields_at_sample_fields _ _ _ (Hall' k' Hkn')) as Hf'.
  rewrite satrec_from_pure in Hf, Hf' by exact Hpure.
  repeat split.
  - exact Hf.
  - rewrite <- Hrec, <- Ht, Hf in Hf'. rewrite <- Hrec. now injection Hf'.
  - now apply satrec_from_pure.
Qed.

End Claims.

Section CountClaims.

Context {L : Sgp4Library}.

(** The point count for a quotient whose floor is known. *)
Lemma total_points_of_floor D step z :
  CDouble.floor_value (D * 60 / step) = Some z ->
  CInt.INT_MIN <= z -> z <= 238609293 ->
  total_points D step = Some (Z.max 0 z + 1).
Proof.
  intros Hz Hlo Hhi. apply total_points_spec. exists z. repeat split; try assumption. lia.
Qed.

Lemma returned_count env l1 l2 D step n :
  error (parsed l1 l2) = 0 ->
  total_points D step = Some n ->
  all_ok step (parsed l1 l2) (Z.to_nat n) ->
  NewDoubleArray env (9 * n) = true ->
  exists arr,
    fst (propagateFromTle env (Some l1) (Some l2) D step) = Returned arr
    /\ Z.of_nat (List.length arr) = 9 * n.
Proof.
  intros Herr Hn Hall Halloc.
  rewrite (run_of_success env _ _ _ Herr Hn Hall), Halloc. cbn [fst].
  eexists. split; [reflexivity|].
  rewrite run_trajectory_length by exact Hall.
  pose proof (total_points_range _ _ Hn). lia.
Qed.

(** C1, amended.  For accepted lines, a duration [D >= 0] and a step
    [S > 0] such that [floor (D * 60 / S)], taken in double arithmetic, is
    at most 238609293 (nine times the point count then fits an [int]),
    the call returns exactly [floor (D * 60 / S) + 1] samples when no
    propagation fails and the array can be allocated.  So 90 hours at 10
    minutes give 541 samples and 0 hours at 1 minute give one. *)
Theorem sample_count_in_range env l1 l2 :
  error (parsed l1 l2) = 0 ->
  (forall D step z,
      (0 <=? D)%float = true -> (0 <? step)%float = true ->
      CDouble.floor_value (D * 60 / step) = Some z -> z <= 238609293 ->
      all_ok step (parsed l1 l2) (Z.to_nat (z + 1)) ->
      NewDoubleArray env (9 * (z + 1)) = true ->
      exists arr,
        fst (propagateFromTle env (Some l1) (Some l2) D step) = Returned arr
        /\ Z.of_nat (List.length arr) = 9 * (z + 1))
  /\ (all_ok 10 (parsed l1 l2) 541 -> NewDoubleArray env (9 * 541) = true ->
      exists arr,
        fst (propagateFromTle env (Some l1) (Some l2) 90 10) = Returned arr
        /\ Z.of_nat (List.length arr) = 9 * 541)
  /\ (all_ok 1 (parsed l1 l2) 1 -> NewDoubleArray env (9 * 1) = true ->
      exists arr,
        fst (propagateFromTle env (Some l1) (Some l2) 0 1) = Returned arr
        /\ Z.of_nat (List.length arr) = 9 * 1).
Proof.
  intros Herr. repeat split.
  - intros D step z HD Hstep Hz Hhi Hall Halloc.
    assert (Hsign : 0 <= z).
    { apply (floor_value_sign false (D * 60 / step)); [|exact Hz].
      apply (quotient_sign false false).
      - now apply leb_zero_sign.
      - now apply ltb_zero_sign. }
    apply returned_count; try assumption.
    rewrite (total_points_of_floor _ _ Hz) by (unfold CInt.INT_MIN; lia).
    f_equal. lia.
  - intros Hall Halloc. now apply returned_count.
  - intros Hall Halloc. now apply returned_count.
Qed.

(** C2, amended.  The step is not validated.  For accepted lines no step,
    negative or zero included, makes the call end in an invalid-input
    exception; and with a negative step and a duration [D >= 0] (the floor
    of [D * 60 / S] being representable as an [int]) the step count is
    clamped to zero: one sample point, whose elapsed time is [0 * S]. *)
Theorem step_is_not_validated env l1 l2 D step :
  error (parsed l1 l2) = 0 ->
  (forall msg tr,
      propagateFromTle env (Some l1) (Some l2) D step
      <> (Threw IllegalArgumentException msg, tr))
  /\ (forall z,
        (step <? 0)%float = true -> (0 <=? D)%float = true ->
        CDouble.floor_value (D * 60 / step) = Some z -> CInt.INT_MIN <= z ->
        total_points D step = Some 1
        /\ (all_ok step (parsed l1 l2) 1 -> NewDoubleArray env 9 = true ->
            exists arr,
              propagateFromTle env (Some l1) (Some l2) D step
              = (Returned arr, run_calls step (parsed l1 l2) 1)
              /\ List.length arr = 9%nat
              /\ sgp4_times (run_calls step (parsed l1 l2) 1)
                 = [(CDouble.of_int 0 * step)%float])).
Proof.
  intros Herr. split.
  - intros msg tr Hres.
    pose proof (propagateFromTle_run env (Some l1) (Some l2) D step) as Hrun.
    rewrite Hres in Hrun.
    inversion Hrun as [? ? [?|?]|? ? Hrej| | | |]; subst;
      try discriminate; try contradiction.
  - intros z Hstep HD Hz Hlo.
    assert (Hsign : z <= 0).
    { apply (floor_value_sign true (D * 60 / step)); [|exact Hz].
      apply (quotient_sign false true).
      - now apply leb_zero_sign.
      - now apply ltb_sign_zero. }
    assert (Hn : total_points D step = Some 1).
    { rewrite (total_points_of_floor _ _ Hz) by (try assumption; lia).
      f_equal. lia. }
    split; [exact Hn|].
    intros Hall Halloc.
    rewrite (run_of_success env _ _ _ Herr Hn Hall).
    change (9 * 1) with 9. rewrite Halloc.
    eexists. split; [reflexivity|]. split.
    + now rewrite run_trajectory_length.
    + rewrite sgp4_times_run_calls. reflexivity.
Qed.

(** C9, amended.  For accepted lines, a negative duration and a finite
    step [S > 0] such that [floor (D * 60 / S)] is representable as an
    [int], the step count is clamped to zero: there is one sample point,
    at elapsed time 0, and the call returns that one sample when its
    propagation succeeds and the array can be allocated. *)
Theorem negative_duration_one_sample env l1 l2 D step z :
  error (parsed l1 l2) = 0 ->
  (D <? 0)%float = true ->
  (0 <? step)%float = true -> (step <? infinity)%float = true ->
  CDouble.floor_value (D * 60 / step) = Some z -> CInt.INT_MIN <= z ->
  total_points D step = Some 1
  /\ tsince_at step 0 0 = 0%float
  /\ (ok_at step 0 (parsed l1 l2) 0 = true -> NewDoubleArray env 9 = true ->
      exists arr,
        propagateFromTle env (Some l1) (Some l2) D step
        = (Returned arr, run_calls step (parsed l1 l2) 1)
        /\ sample_fields (parsed l1 l2) 0 = Some arr
        /\ List.length arr = 9%nat
        /\ sgp4_times (run_calls step (parsed l1 l2) 1) = [0%float]).
Proof.
  intros Herr HD Hstep Hfin Hz Hlo.
  assert (Hsign : z <= 0).
  { apply (floor_value_sign true (D * 60 / step)); [|exact Hz].
    apply (quotient_sign true false).
    - apply sf_signed_sign_in. now apply ltb_sign_zero.
    - now apply ltb_zero_sign. }
  assert (Hn : total_points D step = Some 1).
  { rewrite (total_points_of_floor _ _ Hz) by (try assumption; lia).
    f_equal. lia. }
  assert (Ht : tsince_at step 0 0 = 0%float).
  { rewrite tsince_at_first. now apply zero_times_finite. }
  repeat split; try assumption.
  intros Hok Halloc.
  assert (Hall : all_ok step (parsed l1 l2) 1).
  { intros [|k] Hk; [exact Hok|lia]. }
  rewrite (run_of_success env _ _ _ Herr Hn Hall).
  change (9 * 1) with 9. rewrite Halloc.
  eexists. split; [reflexivity|]. repeat split.
  - pose proof (fields_at_sample_fields _ _ _ Hok) as Hf.
    cbn [satrec_from] in Hf. rewrite Ht in Hf.
    unfold run_trajectory. change (Z.to_nat 1) with 1%nat.
    cbn [seq map concat]. now rewrite app_nil_r.
  - now rewrite run_trajectory_length.
  - rewrite sgp4_times_run_calls. cbn [seq map]. now rewrite Ht.
Qed.

End CountClaims.

(** ** The properties on runs of the stand-in library *)

Lemma stub_leaves_record decay : sgp4_leaves_record (L := Stub.library decay).
Proof. intros g s t. reflexivity. Qed.

Lemma stub_keeps_epoch decay : sgp4_keeps_epoch (L := Stub.library decay).
Proof. intros g s t. reflexivity. Qed.

Section OnDecaying.

#[local] Existing Instance Stub.decaying.

Lemma rejected_tle_witness :
  error (parsed "1 25544U 98067A" Stub.line2) <> 0
  /\ propagateFromTle Stub.env (Some "1 25544U 98067A"%string) (Some Stub.line2) 24 10
     = (Threw IllegalArgumentException "Invalid TLE format", []).
Proof.
  assert (H : error (parsed "1 25544U 98067A" Stub.line2) <> 0)
    by (vm_compute; discriminate).
  split; [exact H|].
  exact (rejected_tle_fails_before_propagation Stub.env _ _ 24 10 H).
Defined.

Lemma propagation_failure_witness :
  total_points 20 400 = Some 4
  /\ first_failure 400 (parsed Stub.line1 Stub.line2) 3
  /\ fst (propagateFromTle Stub.env (Some Stub.line1) (Some Stub.line2) 20 400)
     = Threw RuntimeException "SGP4 propagation failed at step 3"
  /\ sgp4_times (snd (propagateFromTle Stub.env (Some Stub.line1) (Some Stub.line2) 20 400))
     = [0; 400; 800; 1200]%float.
Proof.
  assert (Hn : total_points 20 400 = Some 4) by (vm_compute; reflexivity).
  assert (Hfail : first_failure 400 (parsed Stub.line1 Stub.line2) 3).
  { split; [apply all_ok_forallb|]; vm_compute; reflexivity. }
  assert (Herr : error (parsed Stub.line1 Stub.line2) = 0) by (vm_compute; reflexivity).
  destruct (@propagation_failure_aborts _ Stub.env Stub.line1 Stub.line2 20 400 4 3
              Herr Hn ltac:(vm_compute; lia) Hfail)
    as (Hres & _ & _ & Htimes).
  repeat split; try assumption; apply Hfail.
Defined.

Lemma sample_layout_witness :
  exists arr tr,
    propagateFromTle Stub.env (Some Stub.line1) (Some Stub.line2) 1 30
    = (Returned arr, tr)
    /\ Z.of_nat (List.length arr) = 9 * 3.
Proof.
  destruct (propagateFromTle Stub.env (Some Stub.line1) (Some Stub.line2) 1 30)
    as [[arr| |] tr] eqn:Hres; try (vm_compute in Hres; discriminate).
  exists arr, tr. split; [reflexivity|].
  destruct (@sample_layout _ _ _ _ _ _ _ _ Hres) as (s1 & s2 & n & _ & _ & Hn & Hlen & _).
  assert (Hn3 : n = 3) by (vm_compute in Hn; now injection Hn).
  rewrite Hlen, Hn3. reflexivity.
Defined.



Lemma sample_is_function_witness :
  exists arr tr arr' tr',
    propagateFromTle Stub.env (Some Stub.line1) (Some Stub.line2) 1 30
    = (Returned arr, tr)
    /\ propagateFromTle Stub.env (Some Stub.line1) (Some Stub.line2) 2 60
       = (Returned arr', tr')
    /\ tsince_at 30 0 2 = tsince_at 60 0 1
    /\ sample arr 2 = sample arr' 1.
Proof.
  destruct (propagateFromTle Stub.env (Some Stub.line1) (Some Stub.line2) 1 30)
    as [[arr| |] tr] eqn:Hres; try (vm_compute in Hres; discriminate).
  destruct (propagateFromTle Stub.env (Some Stub.line1) (Some Stub.line2) 2 60)
    as [[arr'| |] tr'] eqn:Hres'; try (vm_compute in Hres'; discriminate).
  exists arr, tr, arr', tr'.
  assert (Ht : tsince_at 30 0 2 = tsince_at 60 0 1) by (vm_compute; reflexivity).
  repeat split; try assumption.
  assert (Hlen : (9 * 2 < List.length arr)%nat).
  { vm_compute in Hres. injection Hres as <- _. vm_compute. lia. }
  assert (Hlen' : (9 * 1 < List.length arr')%nat).
  { vm_compute in Hres'. injection Hres' as <- _. vm_compute. lia. }
  exact (proj1 (proj2 (@sample_is_function_of_record_and_time _ _ _ _ _ _ _ _ _ _ _
                         _ _ _ _ _ _ (@stub_leaves_record 1000%float) Hres Hres' eq_refl
                         Hlen Hlen' Ht))).
Defined.

End OnDecaying.

Lemma turning_keeps_epoch : sgp4_keeps_epoch (L := Stub.turning).
Proof. intros g s t. reflexivity. Qed.

Section OnTurning.

#[local] Existing Instance Stub.turning.

Lemma frame_conversion_date_witness :
  exists arr tr,
    propagateFromTle Stub.env (Some Stub.line1) (Some Stub.line2) 1 30
    = (Returned arr, tr)
    /\ nth 1 (teme2ecef_dates tr) nan = (2451545 + CDouble.of_int 1 * 30 / 1440)%float
    /\ skipn 6 (sample arr 1)
       = [((2451545 + CDouble.of_int 1 * 30 / 1440) * (180 / pi))%float;
          (30 / 7000 * (180 / pi))%float;
          (7000 + 30 - 6378)%float].
Proof.
  destruct (propagateFromTle Stub.env (Some Stub.line1) (Some Stub.line2) 1 30)
    as [[arr| |] tr] eqn:Hres; try (vm_compute in Hres; discriminate).
  exists arr, tr. split; [reflexivity|].
  destruct (@frame_conversion_date _ _ _ _ _ _ _ _ Hres)
    as (s1 & s2 & n & [= <-] & [= <-] & Hn & _ & Hsamples).
  assert (Hn3 : n = 3) by (vm_compute in Hn; now injection Hn).
  destruct (Hsamples 1%nat ltac:(rewrite Hn3; vm_compute; lia))
    as (s' & r & v & Hsgp & Hdate & Hgeo & _).
  vm_compute in Hsgp. injection Hsgp as <- <- <-.
  split.
  - rewrite Hdate. vm_compute. reflexivity.
  - rewrite Hgeo. vm_compute. reflexivity.
Defined.

End OnTurning.

Section OnLasting.

#[local] Existing Instance Stub.lasting.

Lemma sample_count_witness :
  (exists arr,
      fst (propagateFromTle Stub.env (Some Stub.line1) (Some Stub.line2) 1 7) = Returned arr
      /\ Z.of_nat (List.length arr) = 9 * (8 + 1))
  /\ (exists arr,
         fst (propagateFromTle Stub.env (Some Stub.line1) (Some Stub.line2) 90 10)
         = Returned arr
         /\ Z.of_nat (List.length arr) = 9 * 541)
  /\ (exists arr,
         fst (propagateFromTle Stub.env (Some Stub.line1) (Some Stub.line2) 0 1)
         = Returned arr
         /\ Z.of_nat (List.length arr) = 9 * 1).
Proof.
  assert (Herr : error (parsed Stub.line1 Stub.line2) = 0) by (vm_compute; reflexivity).
  destruct (@sample_count_in_range _ Stub.env Stub.line1 Stub.line2 Herr)
    as (Hgen & H541 & H1).
  repeat split.
  - apply Hgen; try (vm_compute; reflexivity).
    + vm_compute. discriminate.
    + apply all_ok_forallb. vm_compute. reflexivity.
  - apply H541; [apply all_ok_forallb|]; vm_compute; reflexivity.
  - apply H1; [apply all_ok_forallb|]; vm_compute; reflexivity.
Defined.

(** C1 as stated fails: 35791395 hours at 1 minute are 2147483700 steps,
    more than an [int] holds; the conversion is undefined and the call
    does not return 2147483701 samples. *)
Lemma sample_count_counterexample :
  error (parsed Stub.line1 Stub.line2) = 0
  /\ (0 <=? 35791395)%float = true /\ (0 <? 1)%float = true
  /\ CDouble.floor_value (35791395 * 60 / 1) = Some 2147483700
  /\ propagateFromTle Stub.env (Some Stub.line1) (Some Stub.line2) 35791395 1
     = (Undefined, []).
Proof. repeat split; vm_compute; reflexivity. Qed.

Lemma step_is_not_validated_witness :
  total_points 1 (-1) = Some 1
  /\ exists arr,
       propagateFromTle Stub.env (Some Stub.line1) (Some Stub.line2) 1 (-1)
       = (Returned arr, run_calls (-1) (parsed Stub.line1 Stub.line2) 1)
       /\ List.length arr = 9%nat.
Proof.
  assert (Herr : error (parsed Stub.line1 Stub.line2) = 0) by (vm_compute; reflexivity).
  destruct (@step_is_not_validated _ Stub.env Stub.line1 Stub.line2 1 (-1) Herr)
    as (_ & Hneg).
  destruct (Hneg (-60)) as (Hn & Hrun); try (vm_compute; reflexivity).
  { vm_compute. discriminate. }
  split; [exact Hn|].
  destruct Hrun as (arr & Hres & Hlen & _).
  - apply all_ok_forallb. vm_compute. reflexivity.
  - vm_compute. reflexivity.
  - exists arr. split; assumption.
Defined.

(** C2 as stated fails: with a step of -1 minute the call returns one
    sample instead of raising an invalid-input exception. *)
Lemma step_is_not_validated_counterexample :
  (-1 <=? 0)%float = true
  /\ error (parsed Stub.line1 Stub.line2) = 0
  /\ exists arr tr,
       propagateFromTle Stub.env (Some Stub.line1) (Some Stub.line2) 1 (-1)
       = (Returned arr, tr)
       /\ List.length arr = 9%nat.
Proof.
  repeat split; try (vm_compute; reflexivity).
  destruct (propagateFromTle Stub.env (Some Stub.line1) (Some Stub.line2) 1 (-1))
    as [[arr| |] tr] eqn:Hres; try (vm_compute in Hres; discriminate).
  exists arr, tr. split; [reflexivity|].
  vm_compute in Hres. injection Hres as <- _. reflexivity.
Qed.

Lemma negative_duration_witness :
  total_points (-1) 1 = Some 1
  /\ exists arr,
       propagateFromTle Stub.env (Some Stub.line1) (Some Stub.line2) (-1) 1
       = (Returned arr, run_calls 1 (parsed Stub.line1 Stub.line2) 1)
       /\ sample_fields (parsed Stub.line1 Stub.line2) 0 = Some arr.
Proof.
  assert (Herr : error (parsed Stub.line1 Stub.line2) = 0) by (vm_compute; reflexivity).
  destruct (@negative_duration_one_sample _ Stub.env Stub.line1 Stub.line2 (-1) 1 (-60)
              Herr) as (Hn & _ & Hrun); try (vm_compute; reflexivity).
  { vm_compute. discriminate. }
  split; [exact Hn|].
  destruct Hrun as (arr & Hres & Hfields & _); try (vm_compute; reflexivity).
  exists arr. split; assumption.
Defined.

(** C9 as stated fails: a duration of -2^100 hours at 1 minute gives a
    quotient below the range of [int], whose conversion is undefined; and
    with an infinite step the one sample is taken at [0 * infinity], which
    is not a number, instead of elapsed time 0. *)
Lemma negative_duration_counterexample :
  error (parsed Stub.line1 Stub.line2) = 0
  /\ (-0x1p+100 <? 0)%float = true /\ (0 <? 1)%float = true
  /\ propagateFromTle Stub.env (Some Stub.line1) (Some Stub.line2) (-0x1p+100) 1
     = (Undefined, [])
  /\ (-1 <? 0)%float = true /\ (0 <? infinity)%float = true
  /\ total_points (-1) infinity = Some 1
  /\ tsince_at infinity 0 0 = nan.
Proof. repeat split; vm_compute; reflexivity. Qed.

End OnLasting.

(** * Further properties of the wrapper *)

(** ** The two line buffers *)

Lemma substring_prefix n : forall l t,
  (n <= String.length l)%nat ->
  substring 0 n (l ++ t)%string = substring 0 n l.
Proof.
  induction n as [|n IH]; intros l t Hlen.
  - destruct l, t; reflexivity.
  - destruct l as [|c l]; cbn in Hlen; [lia|].
    cbn [String.append substring]. f_equal. apply IH. lia.
Qed.

Lemma substring_length_le n : forall l, (String.length (substring 0 n l) <= n)%nat.
Proof.
  induction n as [|n IH]; intros l.
  - destruct l; cbn; lia.
  - destruct l as [|c l]; cbn; [lia|]. specialize (IH l). lia.
Qed.

Section Buffers.

Context {L : Sgp4Library}.

(** Each line is copied into a buffer of 130 bytes: at most 129
    characters of it are kept, and two calls whose first lines agree on
    their first 129 characters, and whose second lines do, end alike.  What
    follows the first 129 characters of a line has no effect on the call,
    however long or short the other line is. *)
Theorem lines_are_cut_at_129 env a1 a2 b1 b2 D step :
  substring 0 129 a1 = substring 0 129 b1 ->
  substring 0 129 a2 = substring 0 129 b2 ->
  (String.length (strncpy129 a1) <= 129)%nat
  /\ (String.length (strncpy129 a2) <= 129)%nat
  /\ propagateFromTle env (Some a1) (Some a2) D step
     = propagateFromTle env (Some b1) (Some b2) D step.
Proof.
  intros H1 H2. repeat split; try apply substring_length_le.
  unfold propagateFromTle, strncpy129. now rewrite H1, H2.
Qed.

End Buffers.

Section MoreRuns.

Context {L : Sgp4Library}.

Lemma tsince_at_zero step k :
  tsince_at step 0 k = (CDouble.of_int (Z.of_nat k) * step)%float.
Proof. unfold tsince_at. now rewrite Z.add_0_l. Qed.

Lemma run_trajectory_app step s n m :
  run_trajectory step s (n + m)
  = run_trajectory step s n ++ concat (map (fields_at step 0 s) (seq n m)).
Proof.
  unfold run_trajectory. now rewrite seq_app, map_app, concat_app.
Qed.

Lemma run_calls_app step s n m :
  run_calls step s (n + m)
  = run_calls step s n ++ concat (map (calls_at step 0 s) (seq n m)).
Proof.
  unfold run_calls. now rewrite seq_app, map_app, concat_app.
Qed.

Lemma run_calls_length step s n :
  all_ok step s n -> List.length (run_calls step s n) = (3 * n)%nat.
Proof.
  induction n as [|n IH]; intros Hall; [reflexivity|].
  replace (S n) with (n + 1)%nat by lia.
  rewrite run_calls_app, length_app, IH by (intros k Hk; apply Hall; lia).
  cbn [seq map concat]. rewrite app_nil_r.
  destruct (@calls_at_ok _ step s n (Hall n (Nat.lt_succ_diag_r n)))
    as (r & v & _ & ->).
  cbn [List.length]. lia.
Qed.

Lemma run_failed_inv env l1 l2 D step msg tr :
  propagateFromTle env l1 l2 D step = (Threw RuntimeException msg, tr) ->
  exists s1 s2 n k,
    l1 = Some s1 /\ l2 = Some s2 /\ error (parsed s1 s2) = 0 /\
    total_points D step = Some n /\ (k < Z.to_nat n)%nat /\
    first_failure step (parsed s1 s2) k /\
    msg = failure_message (Z.of_nat k) /\
    tr = run_calls step (parsed s1 s2) k ++ [Call_sgp4 (tsince_at step 0 k)].
Proof.
  intros Hres. pose proof (propagateFromTle_run env l1 l2 D step) as Hrun.
  rewrite Hres in Hrun.
  inversion Hrun as [| | |s1 s2 n k Herr Hn Hk Hfail| |]; subst.
  exists s1, s2, n, k. repeat split; try assumption; apply Hfail.
Qed.

(** The elapsed times handed to [sgp4] in a successful call are
    [0 * stepMinutes], [1 * stepMinutes], ... in this order, one per sample
    of the array; they are computed from the index, not accumulated. *)
Theorem elapsed_times_of_run env l1 l2 D step arr tr :
  propagateFromTle env l1 l2 D step = (Returned arr, tr) ->
  exists n,
    total_points D step = Some n
    /\ Z.of_nat (List.length arr) = 9 * n
    /\ sgp4_times tr
       = map (fun k => (CDouble.of_int (Z.of_nat k) * step)%float) (seq 0 (Z.to_nat n)).
Proof.
  intros Hres. apply run_returned_inv in Hres.
  destruct Hres as (s1 & s2 & n & -> & -> & Herr & Hn & Hall & Halloc & -> & ->).
  exists n. repeat split; try assumption.
  - rewrite run_trajectory_length by exact Hall.
    pose proof (total_points_range _ _ Hn). lia.
  - rewrite sgp4_times_run_calls. apply map_ext. intros k. apply tsince_at_zero.
Qed.

(** A returned array is never empty: it holds at least one sample, a whole
    number of samples, and at most 2147483646 numbers; the loop has called
    the library three times for each sample, once for every three numbers
    of the array. *)
Theorem returned_array_size env l1 l2 D step arr tr :
  propagateFromTle env l1 l2 D step = (Returned arr, tr) ->
  9 <= Z.of_nat (List.length arr) <= 2147483646
  /\ Z.of_nat (List.length arr) mod 9 = 0
  /\ 3 * Z.of_nat (List.length tr) = Z.of_nat (List.length arr).
Proof.
  intros Hres. apply run_returned_inv in Hres.
  destruct Hres as (s1 & s2 & n & -> & -> & Herr & Hn & Hall & Halloc & -> & ->).
  rewrite run_trajectory_length by exact Hall.
  rewrite run_calls_length by exact Hall.
  pose proof (total_points_range _ _ Hn) as Hrange.
  replace (Z.of_nat (9 * Z.to_nat n)) with (n * 9) by lia.
  repeat split; try lia.
  apply Z.mod_mul. lia.
Qed.

(** Invalid lines are reported before the duration, the step and the JNI
    environment are looked at: for a null or a rejected line the outcome is
    the same invalid-input exception whatever they are, and no call is made
    into the library. *)
Theorem invalid_lines_come_first env env' l1 l2 D D' step step' :
  (l1 = None \/ l2 = None
   \/ exists s1 s2, l1 = Some s1 /\ l2 = Some s2 /\ error (parsed s1 s2) <> 0) ->
  propagateFromTle env l1 l2 D step = propagateFromTle env' l1 l2 D' step'
  /\ exists msg,
       propagateFromTle env l1 l2 D step = (Threw IllegalArgumentException msg, []).
Proof.
  intros [->|[->|(s1 & s2 & -> & -> & Herr)]].
  - split; [reflexivity|]. eexists. reflexivity.
  - destruct l1; (split; [reflexivity|]); eexists; reflexivity.
  - apply Z.eqb_neq in Herr. unfold propagateFromTle. fold (parsed s1 s2).
    rewrite Herr. cbn [negb]. split; [reflexivity|]. eexists. reflexivity.
Qed.

(** Sampling longer only appends: with the same lines and the same step,
    the array and the library calls of a successful call are an initial
    segment of those of a successful call with more points. *)
Theorem longer_duration_extends env env' l1 l2 D D' step arr tr arr' tr' :
  propagateFromTle env l1 l2 D step = (Returned arr, tr) ->
  propagateFromTle env' l1 l2 D' step = (Returned arr', tr') ->
  (List.length arr <= List.length arr')%nat ->
  arr = firstn (List.length arr) arr' /\ tr = firstn (List.length tr) tr'.
Proof.
  intros Hres Hres' Hlen.
  apply run_returned_inv in Hres, Hres'.
  destruct Hres as (s1 & s2 & n & -> & -> & _ & _ & Hall & _ & -> & ->).
  destruct Hres' as (t1 & t2 & n' & [= <-] & [= <-] & _ & _ & Hall' & _ & -> & ->).
  rewrite !run_trajectory_length in Hlen by assumption.
  replace (Z.to_nat n') with (Z.to_nat n + (Z.to_nat n' - Z.to_nat n))%nat by lia.
  rewrite run_trajectory_app, run_calls_app.
  split.
  - rewrite firstn_app, Nat.sub_diag, firstn_O, app_nil_r.
    symmetry. apply firstn_all.
  - rewrite firstn_app, Nat.sub_diag, firstn_O, app_nil_r.
    symmetry. apply firstn_all.
Qed.

(** A propagation failure does not depend on the duration: when a call
    fails at some sample, every call with the same lines and step whose
    point count reaches that sample fails in the same way, with the same
    message and after the same library calls, whatever the JNI environment. *)
Theorem failure_persists env env' l1 l2 D D' step msg tr n' :
  propagateFromTle env l1 l2 D step = (Threw RuntimeException msg, tr) ->
  total_points D' step = Some n' ->
  Z.of_nat (List.length (sgp4_times tr)) <= n' ->
  propagateFromTle env' l1 l2 D' step = (Threw RuntimeException msg, tr).
Proof.
  intros Hres Hn' Hreach. apply run_failed_inv in Hres.
  destruct Hres as (s1 & s2 & n & k & -> & -> & Herr & _ & _ & Hfail & -> & ->).
  rewrite sgp4_times_failed, length_map, length_seq in Hreach.
  apply run_of_failure with (n := n'); try assumption. lia.
Qed.

(** The array is allocated last.  Whether the allocation succeeds changes
    neither the samples nor the library calls: a call that returns with one
    JNI environment returns the same array with any other, or ends in an
    out-of-memory error after the same library calls. *)
Theorem allocation_is_last env env' l1 l2 D step arr tr :
  propagateFromTle env l1 l2 D step = (Returned arr, tr) ->
  propagateFromTle env' l1 l2 D step = (Returned arr, tr)
  \/ propagateFromTle env' l1 l2 D step
     = (Threw OutOfMemoryError "Failed to allocate result array", tr).
Proof.
  intros Hres. apply run_returned_inv in Hres.
  destruct Hres as (s1 & s2 & n & -> & -> & Herr & Hn & Hall & _ & -> & ->).
  rewrite (run_of_success env' _ _ _ Herr Hn Hall).
  destruct (NewDoubleArray env' (9 * n)); [now left|now right].
Qed.

End MoreRuns.

(** ** Zeros, infinities and NaN among the inputs *)

Lemma is_nan_spec x : is_nan x = true <-> Prim2SF x = S754_nan.
Proof.
  unfold is_nan. rewrite eqb_spec.
  destruct (Prim2SF x) as [s|[|]| |[|] m e]; cbn;
    rewrite ?Z.compare_refl, ?Pos.compare_cont_refl; cbn;
    split; intros H; try reflexivity; discriminate.
Qed.

Lemma is_zero_spec x : is_zero x = true <-> exists s, Prim2SF x = S754_zero s.
Proof.
  unfold is_zero. rewrite eqb_spec. change (Prim2SF zero) with (S754_zero false).
  destruct (Prim2SF x) as [s|[|]| |[|] m e]; cbn; split;
    try discriminate; try (intros [s' Hs]; discriminate); try reflexivity.
  intros _. now exists s.
Qed.

Lemma is_infinity_spec x :
  is_infinity x = true <-> exists s, Prim2SF x = S754_infinity s.
Proof.
  unfold is_infinity. rewrite eqb_spec, abs_spec.
  change (Prim2SF infinity) with (S754_infinity false).
  destruct (Prim2SF x) as [s|s| |s m e]; cbn; split;
    try discriminate; try (intros [s' Hs]; discriminate); try reflexivity.
  intros _. now exists s.
Qed.

Lemma is_finite_spec x :
  is_finite x = true <->
  (exists s, Prim2SF x = S754_zero s) \/ (exists s m e, Prim2SF x = S754_finite s m e).
Proof.
  unfold is_finite.
  destruct (is_nan x) eqn:Hnan.
  - apply is_nan_spec in Hnan. rewrite Hnan. cbn. split; [discriminate|].
    intros [[s Hs]|(s & m & e & Hs)]; discriminate.
  - destruct (is_infinity x) eqn:Hinf.
    + apply is_infinity_spec in Hinf. destruct Hinf as [s Hs]. rewrite Hs. cbn.
      split; [discriminate|]. intros [[s' Hs']|(s' & m & e & Hs')]; discriminate.
    + cbn. split; [|reflexivity]. intros _.
      destruct (Prim2SF x) as [s|s| |s m e] eqn:Hx.
      * left. now exists s.
      * assert (is_infinity x = true) by (apply is_infinity_spec; now exists s).
        congruence.
      * assert (is_nan x = true) by now apply is_nan_spec. congruence.
      * right. now exists s, m, e.
Qed.

Lemma floor_value_none x :
  Prim2SF x = S754_nan \/ (exists s, Prim2SF x = S754_infinity s) ->
  CDouble.floor_value x = None.
Proof.
  unfold CDouble.floor_value. intros [->|[s ->]]; reflexivity.
Qed.

(** The quotient [D * 60 / S] is infinite or not a number when the step is
    a zero or a NaN, or the duration is infinite or a NaN. *)
Lemma quotient_not_finite D step :
  is_zero step = true \/ is_nan step = true \/ is_finite D = false ->
  Prim2SF (D * 60 / step) = S754_nan
  \/ exists s, Prim2SF (D * 60 / step) = S754_infinity s.
Proof.
  rewrite div_spec, FloatAxioms.mul_spec.
  change (Prim2SF 60) with (S754_finite false 8444249301319680 (-47)).
  intros [Hz|[Hn|HD]].
  - apply is_zero_spec in Hz. destruct Hz as [s ->].
    destruct (SF64mul (Prim2SF D) _) as [s'|s'| |s' m' e']; cbn; eauto.
  - apply is_nan_spec in Hn. rewrite Hn.
    destruct (SF64mul (Prim2SF D) _) as [s'|s'| |s' m' e']; cbn; eauto.
  - assert (Hcls : Prim2SF D = S754_nan \/ exists s, Prim2SF D = S754_infinity s).
    { destruct (Prim2SF D) as [s|s| |s m e] eqn:HD'; eauto.
      - assert (is_finite D = true) by (apply is_finite_spec; left; now exists s).
        congruence.
      - assert (is_finite D = true)
          by (apply is_finite_spec; right; now exists s, m, e).
        congruence. }
    destruct Hcls as [->|[s ->]]; cbn.
    + destruct (Prim2SF step); cbn; eauto.
    + destruct (Prim2SF step) as [s'|s'| |s' m' e']; cbn; eauto.
Qed.

Section EdgeInputs.

Context {L : Sgp4Library}.

(** The step is divided by without a check: with accepted lines, a zero or
    NaN step, or an infinite or NaN duration, makes the quotient infinite or
    not a number; its conversion to [int] is undefined, and with it what
    the call does. *)
Theorem zero_step_is_undefined env l1 l2 D step :
  error (parsed l1 l2) = 0 ->
  is_zero step = true \/ is_nan step = true \/ is_finite D = false ->
  total_points D step = None
  /\ fst (propagateFromTle env (Some l1) (Some l2) D step) = Undefined.
Proof.
  intros Herr Hedge.
  assert (Hn : total_points D step = None).
  { unfold total_points, CDouble.int_of_floor.
    now rewrite (@floor_value_none _ (@quotient_not_finite _ _ Hedge)). }
  split; [exact Hn|].
  apply Z.eqb_eq in Herr. unfold propagateFromTle. fold (parsed l1 l2).
  now rewrite Herr, Hn.
Qed.

(** The point count, whenever it is defined, is the floor of
    [D * 60 / S] clamped below at zero, plus one; it is defined exactly
    when that floor is a number between -2147483648 and 238609293. *)
Theorem point_count_is_clamped_floor D step n :
  total_points D step = Some n <->
  exists z,
    CDouble.floor_value (D * 60 / step) = Some z
    /\ -2147483648 <= z <= 238609293
    /\ n = Z.max 0 z + 1.
Proof.
  rewrite total_points_spec. unfold CInt.INT_MIN.
  split; intros (z & Hz & H); exists z; (split; [exact Hz|]); lia.
Qed.

Lemma zero_times_step step :
  (is_finite step = true -> is_zero (CDouble.of_int 0 * step) = true)
  /\ (is_finite step = false -> (CDouble.of_int 0 * step)%float = nan).
Proof.
  assert (Hmul : Prim2SF (CDouble.of_int 0 * step)
                 = SF64mul (S754_zero false) (Prim2SF step))
    by apply FloatAxioms.mul_spec.
  split; intros Hfin.
  - apply is_finite_spec in Hfin. apply is_zero_spec.
    destruct Hfin as [[s Hs]|(s & m & e & Hs)]; rewrite Hs in Hmul; cbn in Hmul; eauto.
  - apply Prim2SF_inj. rewrite Hmul. change (Prim2SF nan) with S754_nan.
    destruct (Prim2SF step) as [s|s| |s m e] eqn:Hs; try reflexivity.
    + assert (is_finite step = true) by (apply is_finite_spec; left; now exists s).
      congruence.
    + assert (is_finite step = true)
        by (apply is_finite_spec; right; now exists s, m, e).
      congruence.
Qed.

(** The first sample is taken at the epoch exactly when the step is finite:
    [0 * S] is a zero for a finite step and not a number otherwise. *)
Theorem first_sample_time step :
  (is_finite step = true -> is_zero (tsince_at step 0 0) = true)
  /\ (is_finite step = false -> tsince_at step 0 0 = nan).
Proof. rewrite tsince_at_first. apply zero_times_step. Qed.

(** For a finite step the Julian date handed to [teme2ecef] for the first
    sample is the epoch of the record itself (an epoch other than zero):
    adding [0 / 1440] changes nothing. *)
Theorem first_frame_date step s :
  is_finite step = true ->
  is_zero (jdsatepoch (fst (sgp4_at step 0 s 0))) = false ->
  jdut1_at step 0 s 0 = jdsatepoch (fst (sgp4_at step 0 s 0)).
Proof.
  intros Hfin Hzero. unfold jdut1_at.
  set (epoch := jdsatepoch (fst (sgp4_at step 0 s 0))) in *.
  destruct (zero_times_step step) as [Ht _]. specialize (Ht Hfin).
  rewrite tsince_at_first.
  apply is_zero_spec in Ht. destruct Ht as [st Ht].
  apply Prim2SF_inj. rewrite add_spec, div_spec, Ht.
  change (Prim2SF 1440) with (S754_finite false 6333186975989760 (-42)).
  cbn [SF64div SFdiv].
  destruct (Prim2SF epoch) as [se|se| |se me ee] eqn:He; try reflexivity.
  assert (is_zero epoch = true) by (apply is_zero_spec; now exists se).
  congruence.
Qed.

End EdgeInputs.

(** ** The index in the failure message *)

(** The message of a propagation failure is the fixed text followed by the
    index in decimal: reading the digits back gives the index. *)
Theorem failure_index_round_trip i :
  exists digits,
    failure_message i = ("SGP4 propagation failed at step " ++ digits)%string
    /\ option_map Z.of_int (NilZero.int_of_string digits) = Some i.
Proof.
  exists (CInt.to_string i). split; [reflexivity|].
  unfold CInt.to_string. rewrite NilZero.isi.
  - cbn. now rewrite DecimalZ.of_to.
  - destruct i as [|p|p]; cbn; try discriminate.
    intros [= Hp]. now apply (DecimalPos.Unsigned.to_uint_nonnil p).
  - destruct i as [|p|p]; cbn; try discriminate.
    intros [= Hp]. now apply (DecimalPos.Unsigned.to_uint_nonnil p).
Qed.

(** ** The further properties on runs of the stand-in library *)

Section MoreOnDecaying.

#[local] Existing Instance Stub.decaying.

Lemma lines_are_cut_witness :
  String.length Stub.line2 = 69%nat
  /\ propagateFromTle Stub.env
       (Some ((Stub.line1 ++ Stub.line2) ++ " trailing text")%string)
       (Some Stub.line2) 1 30
     = propagateFromTle Stub.env
         (Some (Stub.line1 ++ Stub.line2)%string) (Some Stub.line2) 1 30.
Proof.
  split; [reflexivity|].
  assert (H1 : substring 0 129 ((Stub.line1 ++ Stub.line2) ++ " trailing text")
               = substring 0 129 (Stub.line1 ++ Stub.line2))
    by (apply substring_prefix; vm_compute; lia).
  exact (proj2 (proj2 (@lines_are_cut_at_129 _ Stub.env _ _ _ _ 1 30
                         H1 (eq_refl (substring 0 129 Stub.line2))))).
Defined.

Lemma elapsed_times_witness :
  exists arr tr,
    propagateFromTle Stub.env (Some Stub.line1) (Some Stub.line2) 1 30
    = (Returned arr, tr)
    /\ sgp4_times tr = [0; 30; 60]%float.
Proof.
  destruct (propagateFromTle Stub.env (Some Stub.line1) (Some Stub.line2) 1 30)
    as [[arr| |] tr] eqn:Hres; try (vm_compute in Hres; discriminate).
  exists arr, tr. split; [reflexivity|].
  destruct (@elapsed_times_of_run _ _ _ _ _ _ _ _ Hres) as (n & Hn & _ & Htimes).
  assert (Hn3 : n = 3) by (vm_compute in Hn; now injection Hn).
  rewrite Htimes, Hn3. vm_compute. reflexivity.
Defined.

Lemma returned_array_size_witness :
  exists arr tr,
    propagateFromTle Stub.env (Some Stub.line1) (Some Stub.line2) 1 30
    = (Returned arr, tr)
    /\ 9 <= Z.of_nat (List.length arr) <= 2147483646
    /\ Z.of_nat (List.length arr) mod 9 = 0
    /\ 3 * Z.of_nat (List.length tr) = Z.of_nat (List.length arr).
Proof.
  destruct (propagateFromTle Stub.env (Some Stub.line1) (Some Stub.line2) 1 30)
    as [[arr| |] tr] eqn:Hres; try (vm_compute in Hres; discriminate).
  exists arr, tr. split; [reflexivity|].
  exact (@returned_array_size _ _ _ _ _ _ _ _ Hres).
Defined.

Lemma invalid_lines_witness :
  propagateFromTle Stub.env None (Some Stub.line2) 1 30
  = propagateFromTle Stub.env_full None (Some Stub.line2) nan 0.
Proof.
  exact (proj1 (@invalid_lines_come_first _ Stub.env Stub.env_full None
                  (Some Stub.line2) 1 nan 30 0 (or_introl eq_refl))).
Defined.

Lemma longer_duration_witness :
  exists arr tr arr' tr',
    propagateFromTle Stub.env (Some Stub.line1) (Some Stub.line2) 1 30
    = (Returned arr, tr)
    /\ propagateFromTle Stub.env (Some Stub.line1) (Some Stub.line2) 2 30
       = (Returned arr', tr')
    /\ List.length arr = 27%nat /\ List.length arr' = 45%nat
    /\ arr = firstn (List.length arr) arr'.
Proof.
  destruct (propagateFromTle Stub.env (Some Stub.line1) (Some Stub.line2) 1 30)
    as [[arr| |] tr] eqn:Hres; try (vm_compute in Hres; discriminate).
  destruct (propagateFromTle Stub.env (Some Stub.line1) (Some Stub.line2) 2 30)
    as [[arr'| |] tr'] eqn:Hres'; try (vm_compute in Hres'; discriminate).
  exists arr, tr, arr', tr'.
  assert (Hlen : List.length arr = 27%nat).
  { vm_compute in Hres. injection Hres as <- _. reflexivity. }
  assert (Hlen' : List.length arr' = 45%nat).
  { vm_compute in Hres'. injection Hres' as <- _. reflexivity. }
  split; [reflexivity|]. split; [reflexivity|].
  split; [exact Hlen|]. split; [exact Hlen'|].
  apply (@longer_duration_extends _ _ _ _ _ _ _ _ _ _ _ _ Hres Hres').
  rewrite Hlen, Hlen'. lia.
Defined.

Lemma failure_persists_witness :
  exists tr,
    propagateFromTle Stub.env (Some Stub.line1) (Some Stub.line2) 20 400
    = (Threw RuntimeException "SGP4 propagation failed at step 3", tr)
    /\ total_points 30 400 = Some 5
    /\ propagateFromTle Stub.env_full (Some Stub.line1) (Some Stub.line2) 30 400
       = (Threw RuntimeException "SGP4 propagation failed at step 3", tr).
Proof.
  destruct (propagateFromTle Stub.env (Some Stub.line1) (Some Stub.line2) 20 400)
    as [[arr|cls msg|] tr] eqn:Hres; try (vm_compute in Hres; discriminate).
  assert (Hcls : cls = RuntimeException
                 /\ msg = "SGP4 propagation failed at step 3"%string).
  { vm_compute in Hres. injection Hres as H1 H2 _. now rewrite <- H1, <- H2. }
  destruct Hcls as [-> ->].
  assert (Hn' : total_points 30 400 = Some 5) by (vm_compute; reflexivity).
  exists tr. split; [reflexivity|]. split; [exact Hn'|].
  apply (@failure_persists _ Stub.env Stub.env_full _ _ 20 30 400 _ _ 5 Hres Hn').
  vm_compute in Hres. injection Hres as <-. vm_compute. discriminate.
Defined.

Lemma allocation_is_last_witness :
  exists arr tr,
    propagateFromTle Stub.env (Some Stub.line1) (Some Stub.line2) 1 30
    = (Returned arr, tr)
    /\ propagateFromTle Stub.env_full (Some Stub.line1) (Some Stub.line2) 1 30
       = (Threw OutOfMemoryError "Failed to allocate result array", tr).
Proof.
  destruct (propagateFromTle Stub.env (Some Stub.line1) (Some Stub.line2) 1 30)
    as [[arr| |] tr] eqn:Hres; try (vm_compute in Hres; discriminate).
  exists arr, tr. split; [reflexivity|].
  destruct (@allocation_is_last _ Stub.env Stub.env_full _ _ _ _ _ _ Hres)
    as [Hret|Hoom]; [|exact Hoom].
  vm_compute in Hret. discriminate.
Defined.

Lemma zero_step_witness :
  error (parsed Stub.line1 Stub.line2) = 0
  /\ is_zero (-0) = true
  /\ fst (propagateFromTle Stub.env (Some Stub.line1) (Some Stub.line2) 1 (-0))
     = Undefined.
Proof.
  assert (Herr : error (parsed Stub.line1 Stub.line2) = 0) by (vm_compute; reflexivity).
  assert (Hz : is_zero (-0) = true) by (vm_compute; reflexivity).
  split; [exact Herr|]. split; [exact Hz|].
  exact (proj2 (@zero_step_is_undefined _ Stub.env _ _ 1 (-0) Herr (or_introl Hz))).
Defined.

Lemma first_frame_date_witness :
  is_finite 30 = true
  /\ jdut1_at 30 0 (parsed Stub.line1 Stub.line2) 0 = 2451545%float.
Proof.
  assert (Hfin : is_finite 30 = true) by (vm_compute; reflexivity).
  split; [exact Hfin|].
  rewrite (@first_frame_date _ 30 (parsed Stub.line1 Stub.line2) Hfin);
    vm_compute; reflexivity.
Defined.

End MoreOnDecaying.

(** * The calls on the JNI environment *)

Section JniCalls.

Context {L : Sgp4Library}.

(** The calls on the environment, by the way out of the native method. *)
Lemma jni_calls_of_outcome env l1 l2 D step :
  match fst (propagateFromTle env l1 l2 D step) with
  | Undefined =>
      jni_calls env l1 l2 D step
      = [Jni_GetStringUTFChars Line1; Jni_GetStringUTFChars Line2]
  | Threw cls msg =>
      jni_calls env l1 l2 D step
      = get_and_release l1 l2 ++ [Jni_ThrowNew cls msg]
      \/ exists n,
           total_points D step = Some n
           /\ jni_calls env l1 l2 D step
              = get_and_release l1 l2
                ++ [Jni_NewDoubleArray (9 * n); Jni_ThrowNew cls msg]
  | Returned arr =>
      jni_calls env l1 l2 D step
      = get_and_release l1 l2
        ++ [Jni_NewDoubleArray (Z.of_nat (List.length arr));
            Jni_SetDoubleArrayRegion 0 (Z.of_nat (List.length arr)) arr]
  end.
Proof.
  unfold propagateFromTle, jni_calls, get_and_release.
  destruct l1 as [s1|]; [destruct l2 as [s2|]|]; try (cbn; now left).
  fold (parsed s1 s2).
  destruct (error (parsed s1 s2) =? 0) eqn:Herr; cbn [negb]; [|cbn; now left].
  destruct (total_points D step) as [n|] eqn:Hn; [|reflexivity].
  destruct (for_loop step (Z.to_nat n) 0 _) as [st res] eqn:Hloop.
  apply for_loop_inv in Hloop. cbn [st_satrec st_trajectory st_calls app] in Hloop.
  destruct res as [j|]; [cbn; now left|].
  destruct Hloop as (Hall & _ & Htraj & _).
  fold (run_trajectory step (parsed s1 s2) (Z.to_nat n)) in Htraj.
  pose proof (run_trajectory_length Hall) as Hlen.
  pose proof (total_points_range _ _ Hn) as Hrange.
  rewrite Htraj, Hlen.
  replace (Z.of_nat (9 * Z.to_nat n)) with (9 * n) by lia.
  rewrite of_size_t_small by (unfold CInt.INT_MAX; lia).
  destruct (NewDoubleArray env (9 * n)); cbn [fst].
  - rewrite Hlen. replace (Z.of_nat (9 * Z.to_nat n)) with (9 * n) by lia.
    reflexivity.
  - right. exists n. split; reflexivity.
Qed.

(** Every call that ends obtains the characters of the two lines first and
    releases them next, [line1] before [line2], each once and with the
    pointer it obtained (the null pointer included); no string is obtained
    or released after that. *)
Theorem lines_are_released_once env l1 l2 D step :
  fst (propagateFromTle env l1 l2 D step) <> Undefined ->
  exists rest,
    jni_calls env l1 l2 D step
    = [Jni_GetStringUTFChars Line1; Jni_GetStringUTFChars Line2;
       Jni_ReleaseStringUTFChars Line1 l1; Jni_ReleaseStringUTFChars Line2 l2]
      ++ rest
    /\ existsb is_string_call rest = false.
Proof.
  intros Hdef. pose proof (jni_calls_of_outcome env l1 l2 D step) as Hcalls.
  destruct (fst (propagateFromTle env l1 l2 D step)) as [arr|cls msg|];
    [| |contradiction].
  - eexists. split; [exact Hcalls|reflexivity].
  - destruct Hcalls as [Hcalls|(n & _ & Hcalls)];
      (eexists; split; [exact Hcalls|reflexivity]).
Qed.

(** A returned array is allocated with exactly as many doubles as the
    trajectory holds, the conversion of the size to [jsize] losing nothing,
    and is filled entirely, from index 0, as the last call on the
    environment; no exception is thrown. *)
Theorem returned_array_is_filled env l1 l2 D step arr tr :
  propagateFromTle env l1 l2 D step = (Returned arr, tr) ->
  exists front,
    jni_calls env l1 l2 D step
    = front
      ++ [Jni_NewDoubleArray (Z.of_nat (List.length arr));
          Jni_SetDoubleArrayRegion 0 (Z.of_nat (List.length arr)) arr]
    /\ existsb is_delivery front = false.
Proof.
  intros Hres. pose proof (jni_calls_of_outcome env l1 l2 D step) as Hcalls.
  rewrite Hres in Hcalls. cbn [fst] in Hcalls.
  exists (get_and_release l1 l2). split; [exact Hcalls|reflexivity].
Qed.

(** When the native method leaves with a pending exception, the exception
    is thrown once, as the last call on the environment, after the release
    of the lines, and no array was filled. *)
Theorem exception_is_thrown_last env l1 l2 D step cls msg tr :
  propagateFromTle env l1 l2 D step = (Threw cls msg, tr) ->
  exists front,
    jni_calls env l1 l2 D step = front ++ [Jni_ThrowNew cls msg]
    /\ existsb is_delivery front = false
    /\ firstn 4 front = get_and_release l1 l2.
Proof.
  intros Hres. pose proof (jni_calls_of_outcome env l1 l2 D step) as Hcalls.
  rewrite Hres in Hcalls. cbn [fst] in Hcalls.
  destruct Hcalls as [Hcalls|(n & _ & Hcalls)].
  - exists (get_and_release l1 l2). split; [exact Hcalls|]. split; reflexivity.
  - exists (get_and_release l1 l2 ++ [Jni_NewDoubleArray (9 * n)]).
    split; [|split; reflexivity].
    rewrite Hcalls, <- app_assoc. reflexivity.
Qed.

End JniCalls.

Section JniCallsOnDecaying.

#[local] Existing Instance Stub.decaying.

Lemma lines_are_released_witness :
  fst (propagateFromTle Stub.env (Some Stub.line1) None 1 30) <> Undefined
  /\ exists rest,
       jni_calls Stub.env (Some Stub.line1) None 1 30
       = [Jni_GetStringUTFChars Line1; Jni_GetStringUTFChars Line2;
          Jni_ReleaseStringUTFChars Line1 (Some Stub.line1);
          Jni_ReleaseStringUTFChars Line2 None]
         ++ rest
          /\ existsb is_string_call rest = false.
Proof.
  assert (H : fst (propagateFromTle Stub.env (Some Stub.line1) None 1 30)
              <> Undefined) by (vm_compute; discriminate).
  split; [exact H|].
  exact (@lines_are_released_once _ Stub.env (Some Stub.line1) None 1 30 H).
Defined.

Lemma returned_array_is_filled_witness :
  exists arr tr front,
    propagateFromTle Stub.env (Some Stub.line1) (Some Stub.line2) 1 30
    = (Returned arr, tr)
    /\ jni_calls Stub.env (Some Stub.line1) (Some Stub.line2) 1 30
       = front ++ [Jni_NewDoubleArray 27; Jni_SetDoubleArrayRegion 0 27 arr]
    /\ existsb is_delivery front = false.
Proof.
  destruct (propagateFromTle Stub.env (Some Stub.line1) (Some Stub.line2) 1 30)
    as [[arr| |] tr] eqn:Hres; try (vm_compute in Hres; discriminate).
  destruct (@returned_array_is_filled _ _ _ _ _ _ _ _ Hres)
    as (front & Hcalls & Hfront).
  assert (Hlen : Z.of_nat (List.length arr) = 27).
  { vm_compute in Hres. injection Hres as H1 _. rewrite <- H1. reflexivity. }
  rewrite Hlen in Hcalls.
  exists arr, tr, front. split; [reflexivity|]. split; assumption.
Defined.

Lemma exception_is_thrown_witness :
  exists tr front,
    propagateFromTle Stub.env_full (Some Stub.line1) (Some Stub.line2) 1 30
    = (Threw OutOfMemoryError "Failed to allocate result array", tr)
    /\ jni_calls Stub.env_full (Some Stub.line1) (Some Stub.line2) 1 30
       = front ++ [Jni_ThrowNew OutOfMemoryError "Failed to allocate result array"]
    /\ existsb is_delivery front = false
    /\ firstn 4 front = get_and_release (Some Stub.line1) (Some Stub.line2).
Proof.
  destruct (propagateFromTle Stub.env_full (Some Stub.line1) (Some Stub.line2) 1 30)
    as [res tr] eqn:Hres.
  assert (Hout : res = Threw OutOfMemoryError "Failed to allocate result array").
  { vm_compute in Hres. injection Hres as H1 _. rewrite <- H1. reflexivity. }
  subst res.
  destruct (@exception_is_thrown_last _ _ _ _ _ _ _ _ _ Hres)
    as (front & Hcalls & Hfront & Hfirst).
  exists tr, front. split; [reflexivity|]. repeat split; assumption.
Defined.

End JniCallsOnDecaying.

(** * Rounding in the elapsed times

    The elapsed time of sample [i] is the double nearest to [i * S].  The
    lemmas below follow the rounding of [SpecFloat] far enough to compare
    two such products. *)

Unset Implicit Arguments.

(** ** Powers of two and the bits of a mantissa *)

Lemma pow2_pos e : (0 < pow2 e)%R.
Proof. unfold pow2. apply powerRZ_lt. lra. Qed.

Lemma pow2_add a b : pow2 (a + b) = (pow2 a * pow2 b)%R.
Proof. unfold pow2. apply powerRZ_add. lra. Qed.

Lemma pow2_succ e : pow2 (e + 1) = (2 * pow2 e)%R.
Proof. rewrite pow2_add. replace (pow2 1) with 2%R by (unfold pow2; simpl; lra). lra. Qed.

Lemma pow2_IZR n : 0 <= n -> pow2 n = IZR (2 ^ n).
Proof.
  intros Hn. unfold pow2. rewrite <- (Z2Nat.id n) by lia.
  rewrite <- pow_powerRZ. apply pow_IZR.
Qed.

Lemma pow2_le a b : a <= b -> (pow2 a <= pow2 b)%R.
Proof.
  intros H. replace b with (a + (b - a)) by lia.
  rewrite pow2_add, (pow2_IZR (b - a)) by lia.
  assert (1 <= 2 ^ (b - a)) by (apply Z.lt_pred_le; apply Z.pow_pos_nonneg; lia).
  apply IZR_le in H0. pose proof (pow2_pos a). nra.
Qed.

Lemma pow2_lt a b : a < b -> (pow2 a < pow2 b)%R.
Proof.
  intros H. replace b with (a + (b - a)) by lia.
  rewrite pow2_add, (pow2_IZR (b - a)) by lia.
  assert (2 <= 2 ^ (b - a)).
  { change 2 with (2 ^ 1) at 1. apply Z.pow_le_mono_r; lia. }
  apply IZR_le in H0. pose proof (pow2_pos a). nra.
Qed.

Lemma digits2_pos_bounds p :
  2 ^ (Z.pos (digits2_pos p) - 1) <= Z.pos p < 2 ^ Z.pos (digits2_pos p).
Proof.
  induction p as [p IH|p IH|]; cbn [digits2_pos].
  - rewrite Pos2Z.inj_succ. replace (Z.succ (Z.pos (digits2_pos p)) - 1) with (Z.succ (Z.pos (digits2_pos p) - 1)) by lia.
    rewrite !Z.pow_succ_r by lia. lia.
  - rewrite Pos2Z.inj_succ. replace (Z.succ (Z.pos (digits2_pos p)) - 1) with (Z.succ (Z.pos (digits2_pos p) - 1)) by lia.
    rewrite !Z.pow_succ_r by lia. lia.
  - cbn. lia.
Qed.

Lemma Zdigits2_bounds m : 0 < m -> 2 ^ (Zdigits2 m - 1) <= m < 2 ^ Zdigits2 m.
Proof. destruct m as [|p|p]; try lia. intros _. apply digits2_pos_bounds. Qed.

Lemma Zdigits2_pos m : 0 < m -> 0 < Zdigits2 m.
Proof. destruct m; cbn; lia. Qed.

Lemma Zdigits2_le m k : 0 <= k -> 0 <= m < 2 ^ k -> Zdigits2 m <= k.
Proof.
  intros Hk [Hm0 Hm].
  destruct (Z.eq_dec m 0) as [->|Hne]; [cbn; lia|].
  pose proof (Zdigits2_bounds m ltac:(lia)) as [Hlo _].
  pose proof (Zdigits2_pos m ltac:(lia)).
  destruct (Z_lt_le_dec k (Zdigits2 m)) as [Hlt|]; [|lia].
  assert (2 ^ k <= 2 ^ (Zdigits2 m - 1)) by (apply Z.pow_le_mono_r; lia).
  lia.
Qed.

Lemma Zdigits2_ge m k : 0 <= k -> 2 ^ k <= m -> k + 1 <= Zdigits2 m.
Proof.
  intros Hk Hm.
  assert (0 < 2 ^ k) by (apply Z.pow_pos_nonneg; lia).
  pose proof (Zdigits2_bounds m ltac:(lia)) as [_ Hhi].
  pose proof (Zdigits2_pos m ltac:(lia)).
  destruct (Z_lt_le_dec k (Zdigits2 m)) as [Hlt|Hge]; [lia|].
  assert (2 ^ Zdigits2 m <= 2 ^ k) by (apply Z.pow_le_mono_r; lia).
  lia.
Qed.

(** ** Shifting a mantissa to the right *)

Lemma IZR_xO p : IZR (Z.pos p~0) = (2 * IZR (Z.pos p))%R.
Proof. rewrite Pos2Z.inj_xO, mult_IZR. reflexivity. Qed.

Lemma IZR_xI p : IZR (Z.pos p~1) = (2 * IZR (Z.pos p) + 1)%R.
Proof. rewrite Pos2Z.inj_xI, plus_IZR, mult_IZR. reflexivity. Qed.

Lemma shr_1_located x mrs e :
  located x mrs e ->
  located x (shr_1 mrs) (e + 1) /\ shr_m (shr_1 mrs) = shr_m mrs / 2.
Proof.
  unfold located, inbetween, F2R.
  destruct mrs as [m r s]. cbn [shr_m].
  pose proof (pow2_pos e) as Hu. rewrite pow2_succ.
  set (u := pow2 e) in *. clearbody u.
  destruct m as [|[p|p|]|p]; intros [Hm Hx]; try lia.
  - destruct r, s; cbn [shr_1 orb shr_m loc_of_shr_record] in *;
      (split; [split; [lia|]|reflexivity]); lra.
  - assert (Hd : Z.pos p~1 / 2 = Z.pos p) by (rewrite Pos2Z.inj_xI; symmetry; apply (Z.div_unique _ 2 _ 1); lia).
    rewrite Hd. rewrite IZR_xI in Hx.
    destruct r, s; cbn [shr_1 orb shr_m loc_of_shr_record] in *;
      (split; [split; [lia|]|reflexivity]); lra.
  - assert (Hd : Z.pos p~0 / 2 = Z.pos p) by (rewrite Pos2Z.inj_xO; symmetry; apply (Z.div_unique _ 2 _ 0); lia).
    rewrite Hd. rewrite IZR_xO in Hx.
    destruct r, s; cbn [shr_1 orb shr_m loc_of_shr_record] in *;
      (split; [split; [lia|]|reflexivity]); lra.
  - destruct r, s; cbn [shr_1 orb shr_m loc_of_shr_record] in *;
      (split; [split; [lia|]|reflexivity]); lra.
Qed.

Lemma iter_shr_1_located x : forall n mrs e,
  located x mrs e ->
  located x (SpecFloat.iter_pos shr_1 n mrs) (e + Z.pos n)
  /\ shr_m (SpecFloat.iter_pos shr_1 n mrs) = shr_m mrs / 2 ^ Z.pos n.
Proof.
  induction n as [n IH|n IH|]; intros mrs e Hloc; cbn [SpecFloat.iter_pos].
  - destruct (shr_1_located x mrs e Hloc) as [H1 E1].
    destruct (IH _ _ H1) as [H2 E2].
    destruct (IH _ _ H2) as [H3 E3].
    split.
    + replace (e + Z.pos n~1) with (e + 1 + Z.pos n + Z.pos n) by lia. exact H3.
    + rewrite E3, E2, E1.
      rewrite !Z.div_div by (try apply Z.pow_pos_nonneg; lia).
      f_equal. replace (Z.pos n~1) with (1 + Z.pos n + Z.pos n) by lia.
      rewrite !Z.pow_add_r by lia. change (2 ^ 1) with 2. lia.
  - destruct (IH _ _ Hloc) as [H2 E2].
    destruct (IH _ _ H2) as [H3 E3].
    split.
    + replace (e + Z.pos n~0) with (e + Z.pos n + Z.pos n) by lia. exact H3.
    + rewrite E3, E2.
      rewrite !Z.div_div by (try apply Z.pow_pos_nonneg; lia).
      f_equal. replace (Z.pos n~0) with (Z.pos n + Z.pos n) by lia.
      rewrite !Z.pow_add_r by lia. lia.
  - destruct (shr_1_located x mrs e Hloc) as [H1 E1]. split; [exact H1|].
    rewrite E1. reflexivity.
Qed.

Lemma shr_located x mrs e n :
  located x mrs e ->
  located x (fst (shr mrs e n)) (snd (shr mrs e n))
  /\ snd (shr mrs e n) = e + Z.max 0 n
  /\ shr_m (fst (shr mrs e n)) = shr_m mrs / 2 ^ Z.max 0 n.
Proof.
  intros Hloc. destruct n as [|n|n]; cbn [shr fst snd].
  - rewrite Z.add_0_r. cbn. rewrite Z.div_1_r. auto.
  - destruct (iter_shr_1_located x n mrs e Hloc) as [H E].
    replace (Z.max 0 (Z.pos n)) with (Z.pos n) by lia. auto.
  - replace (Z.max 0 (Z.neg n)) with 0 by lia.
    rewrite Z.add_0_r. cbn. rewrite Z.div_1_r. auto.
Qed.

Lemma loc_of_shr_record_of_loc m l :
  loc_of_shr_record (shr_record_of_loc m l) = l.
Proof. destruct l as [|[| |]]; reflexivity. Qed.

Lemma shr_m_of_loc m l : shr_m (shr_record_of_loc m l) = m.
Proof. destruct l as [|[| |]]; reflexivity. Qed.

Lemma fexp64_eq e : fexp64 e = Z.max (e - 53) (-1074).
Proof. reflexivity. Qed.

Lemma shr_fexp_located x M E l :
  0 <= M -> inbetween x M E l ->
  let r := shr_fexp prec emax M E l in
  located x (fst r) (snd r)
  /\ snd r = Z.max E (fexp64 (Zdigits2 M + E))
  /\ shr_m (fst r) = M / 2 ^ (snd r - E).
Proof.
  intros HM Hx r. subst r. unfold shr_fexp.
  assert (Hloc : located x (shr_record_of_loc M l) E).
  { split; [now rewrite shr_m_of_loc|].
    now rewrite shr_m_of_loc, loc_of_shr_record_of_loc. }
  destruct (shr_located x _ E (SpecFloat.fexp prec emax (Zdigits2 M + E) - E) Hloc)
    as (H1 & H2 & H3).
  split; [exact H1|]. fold (fexp64 (Zdigits2 M + E)) in *.
  split; [lia|]. rewrite H3, shr_m_of_loc. f_equal. f_equal. lia.
Qed.

Lemma round_nearest_even_close x mrs e :
  located x mrs e ->
  let m2 := round_nearest_even (shr_m mrs) (loc_of_shr_record mrs) in
  (Rabs (F2R m2 e - x) <= pow2 e / 2)%R /\ shr_m mrs <= m2 <= shr_m mrs + 1.
Proof.
  intros [Hm Hx] m2. subst m2.
  pose proof (pow2_pos e) as Hu.
  unfold inbetween, F2R in *.
  destruct (loc_of_shr_record mrs) as [|[| |]]; cbn [round_nearest_even].
  - split; [|lia]. rewrite Hx. replace (_ - _)%R with 0%R by lra.
    rewrite Rabs_R0. lra.
  - destruct (Z.even (shr_m mrs)); (split; [|lia]).
    + rewrite Hx. apply Rabs_le. lra.
    + rewrite Hx, plus_IZR. apply Rabs_le. lra.
  - split; [|lia]. apply Rabs_le. lra.
  - split; [|lia]. rewrite plus_IZR. apply Rabs_le. lra.
Qed.

(** ** Rounding to nearest *)

Lemma Zdigits2_unique m d : 0 < d -> 2 ^ (d - 1) <= m < 2 ^ d -> Zdigits2 m = d.
Proof.
  intros Hd [Hlo Hhi].
  assert (0 < 2 ^ (d - 1)) by (apply Z.pow_pos_nonneg; lia).
  pose proof (Zdigits2_le m d ltac:(lia) ltac:(lia)).
  pose proof (Zdigits2_ge m (d - 1) ltac:(lia) Hlo). lia.
Qed.

Lemma Zdigits2_nonneg m : 0 <= Zdigits2 m.
Proof. destruct m; cbn; lia. Qed.

Lemma F2R_shift m e k : 0 <= k -> F2R (m * 2 ^ k) e = F2R m (e + k).
Proof.
  intros Hk. unfold F2R. rewrite mult_IZR, <- (pow2_IZR k Hk), pow2_add. lra.
Qed.

(** No bit is lost by the second normalisation of [binary_round_aux]. *)
Lemma second_shift m2 e1 :
  0 <= m2 <= 2 ^ 53 -> -1074 <= e1 ->
  let r := shr_fexp prec emax m2 e1 loc_Exact in
  F2R (shr_m (fst r)) (snd r) = F2R m2 e1
  /\ ((m2 < 2 ^ 53 /\ shr_m (fst r) = m2 /\ snd r = e1)
      \/ (m2 = 2 ^ 53 /\ shr_m (fst r) = 2 ^ 52 /\ snd r = e1 + 1)).
Proof.
  intros Hm2 He1 r.
  assert (Hx : inbetween (F2R m2 e1) m2 e1 loc_Exact) by reflexivity.
  destruct (shr_fexp_located (F2R m2 e1) m2 e1 loc_Exact ltac:(lia) Hx)
    as (_ & He3 & Hm3).
  fold r in He3, Hm3. rewrite fexp64_eq in He3.
  destruct (Z.eq_dec m2 (2 ^ 53)) as [Heq|Hne].
  - assert (Hd : Zdigits2 m2 = 54) by (apply Zdigits2_unique; [lia|rewrite Heq; cbn; lia]).
    rewrite Hd in He3.
    assert (He3' : snd r = e1 + 1) by lia.
    assert (Hm3' : shr_m (fst r) = 2 ^ 52).
    { rewrite Hm3, He3', Heq. replace (e1 + 1 - e1) with 1 by lia. reflexivity. }
    split; [|right; auto].
    rewrite Hm3', He3', Heq, <- F2R_shift by lia. reflexivity.
  - assert (Hd : Zdigits2 m2 <= 53) by (apply Zdigits2_le; lia).
    pose proof (Zdigits2_nonneg m2).
    assert (He3' : snd r = e1) by lia.
    assert (Hm3' : shr_m (fst r) = m2).
    { rewrite Hm3, He3', Z.sub_diag. cbn. apply Z.div_1_r. }
    split; [|left; repeat split; auto; lia].
    now rewrite Hm3', He3'.
Qed.

(** The mantissa after the first normalisation has at most 53 bits. *)
Lemma first_shift_bound M E :
  0 <= M ->
  let e1 := Z.max E (fexp64 (Zdigits2 M + E)) in
  0 <= M / 2 ^ (e1 - E) < 2 ^ 53 /\ -1074 <= e1.
Proof.
  intros HM e1. subst e1. rewrite fexp64_eq.
  set (d := Zdigits2 M).
  set (e1 := Z.max E (Z.max (d + E - 53) (-1074))).
  assert (Hn : 0 <= e1 - E) by lia.
  assert (Hp : 0 < 2 ^ (e1 - E)) by (apply Z.pow_pos_nonneg; lia).
  split; [|lia]. split; [apply Z.div_pos; lia|].
  apply Z.div_lt_upper_bound; [exact Hp|].
  destruct (Z.eq_dec M 0) as [->|HM0].
  - assert (0 < 2 ^ 53) by (cbn; lia). lia.
  - pose proof (Zdigits2_bounds M ltac:(lia)) as [_ Hhi]. fold d in Hhi.
    pose proof (Zdigits2_pos M ltac:(lia)). fold d in H.
    rewrite <- Z.pow_add_r by lia.
    assert (2 ^ d <= 2 ^ (e1 - E + 53)) by (apply Z.pow_le_mono_r; lia).
    lia.
Qed.

Lemma canonical_after_round M E m2 :
  0 <= M -> E <= fexp64 (Zdigits2 M + E) ->
  let e1 := fexp64 (Zdigits2 M + E) in
  M / 2 ^ (e1 - E) <= m2 <= M / 2 ^ (e1 - E) + 1 ->
  0 < m2 < 2 ^ 53 ->
  fexp64 (Zdigits2 m2 + e1) = e1.
Proof.
  intros HM Hal e1 Hm2 Hpos. subst e1.
  rewrite !fexp64_eq in *.
  set (d := Zdigits2 M) in *.
  set (e1 := Z.max (d + E - 53) (-1074)) in *.
  set (n1 := e1 - E) in *.
  assert (Hn1 : 0 <= n1) by lia.
  assert (Hp : 0 < 2 ^ n1) by (apply Z.pow_pos_nonneg; lia).
  set (m1 := M / 2 ^ n1) in *.
  assert (Hm1 : 0 <= m1) by (apply Z.div_pos; lia).
  destruct (Z.eq_dec m1 0) as [Hz|Hnz].
  - assert (m2 = 1) by lia. subst m2. change (Zdigits2 1) with 1.
    enough (e1 = -1074) by lia.
    destruct (Z.eq_dec M 0) as [HM0|HM0].
    + subst M. change (Zdigits2 0) with 0 in d. subst d. lia.
    + pose proof (Zdigits2_bounds M ltac:(lia)) as [Hlo _]. fold d in Hlo.
      pose proof (Zdigits2_pos M ltac:(lia)) as Hd. fold d in Hd.
      assert (HMlt : M < 2 ^ n1).
      { apply Z.div_small_iff in Hz; lia. }
      assert (d - 1 < n1).
      { apply (Z.pow_lt_mono_r_iff 2); lia. }
      lia.
  - assert (HM0 : 0 < M).
    { destruct (Z.eq_dec M 0) as [->|]; [|lia]. subst m1. rewrite Z.div_0_l in Hnz; lia. }
    pose proof (Zdigits2_bounds M HM0) as [Hlo Hhi]. fold d in Hlo, Hhi.
    pose proof (Zdigits2_pos M HM0) as Hd. fold d in Hd.
    assert (HMge : 2 ^ n1 <= M).
    { destruct (Z_lt_le_dec M (2 ^ n1)) as [Hlt|]; [|lia].
      subst m1. rewrite Z.div_small in Hnz; lia. }
    assert (Hnd : n1 < d).
    { apply (Z.pow_lt_mono_r_iff 2); lia. }
    assert (Hm1lo : 2 ^ (d - 1 - n1) <= m1).
    { apply Z.div_le_lower_bound; [lia|].
      rewrite Z.mul_comm, <- Z.pow_add_r by lia.
      replace (d - 1 - n1 + n1) with (d - 1) by lia. exact Hlo. }
    assert (Hm1hi : m1 < 2 ^ (d - n1)).
    { apply Z.div_lt_upper_bound; [lia|].
      rewrite <- Z.pow_add_r by lia.
      replace (n1 + (d - n1)) with d by lia. exact Hhi. }
    destruct (Z_lt_le_dec m2 (2 ^ (d - n1))) as [Hlt|Hge].
    + assert (Hd2 : Zdigits2 m2 = d - n1).
      { apply Zdigits2_unique; [lia|].
        replace (d - n1 - 1) with (d - 1 - n1) by lia. lia. }
      rewrite Hd2. lia.
    + assert (Hm2eq : m2 = 2 ^ (d - n1)) by lia.
      assert (Hd2 : Zdigits2 m2 = d - n1 + 1).
      { apply Zdigits2_unique; [lia|].
        replace (d - n1 + 1 - 1) with (d - n1) by lia.
        rewrite Hm2eq. split; [lia|].
        apply Z.pow_lt_mono_r; lia. }
      rewrite Hd2.
      assert (d - n1 < 53).
      { apply (Z.pow_lt_mono_r_iff 2); [lia|lia|]. rewrite <- Hm2eq. lia. }
      lia.
Qed.

(** What [binary_round_aux] returns for a nonnegative mantissa [M] and a
    number [x] located by [(M, E, l)]. *)
Lemma binary_round_aux_spec x M E l :
  0 <= M -> inbetween x M E l ->
  exists m3 e3,
    0 <= m3 < 2 ^ 53
    /\ Z.max E (fexp64 (Zdigits2 M + E)) <= e3
    /\ (Rabs (F2R m3 e3 - x) <= pow2 (Z.max E (fexp64 (Zdigits2 M + E))) / 2)%R
    /\ binary_round_aux prec emax false M E l
       = match m3 with
         | Z0 => S754_zero false
         | Z.pos p => if e3 <=? 971 then S754_finite false p e3 else S754_infinity false
         | Z.neg _ => S754_nan
         end
    /\ (E <= fexp64 (Zdigits2 M + E) -> 0 < m3 -> fexp64 (Zdigits2 m3 + e3) = e3).
Proof.
  intros HM Hx.
  destruct (shr_fexp_located x M E l HM Hx) as (Hloc1 & He1 & Hm1).
  destruct (first_shift_bound M E HM) as (Hb1 & He1lo).
  unfold binary_round_aux.
  destruct (shr_fexp prec emax M E l) as [mrs1 e1] eqn:Hs1.
  cbn [fst snd] in *.
  destruct (round_nearest_even_close x mrs1 e1 Hloc1) as (Hclose & Hm2).
  set (m2 := round_nearest_even (shr_m mrs1) (loc_of_shr_record mrs1)) in *.
  rewrite <- He1 in He1lo, Hb1. rewrite <- Hm1 in Hb1.
  destruct (second_shift m2 e1 ltac:(lia) He1lo) as (Hval & Hcase).
  destruct (shr_fexp prec emax m2 e1 loc_Exact) as [mrs3 e3] eqn:Hs3.
  cbn [fst snd] in *.
  exists (shr_m mrs3), e3.
  assert (H252 : 0 < 2 ^ 52 < 2 ^ 53) by (cbn; lia).
  split; [|split; [|split; [|split]]].
  - destruct Hcase as [(? & -> & _)|(_ & -> & _)]; lia.
  - rewrite <- He1. destruct Hcase as [(_ & _ & ->)|(_ & _ & ->)]; lia.
  - rewrite Hval, <- He1. exact Hclose.
  - reflexivity.
  - intros Hal Hpos.
    assert (He1' : e1 = fexp64 (Zdigits2 M + E)) by lia.
    destruct Hcase as [(Hlt & Hm3 & ->)|(Heq & Hm3 & ->)].
    + rewrite Hm3 in *. rewrite He1'.
      apply canonical_after_round; try assumption.
      * rewrite <- He1'. rewrite <- Hm1. exact Hm2.
      * lia.
    + rewrite Hm3. change (Zdigits2 (2 ^ 52)) with 53. rewrite fexp64_eq. lia.
Qed.

(** ** Order and exact cases *)

Lemma F2R_pos m e : 0 < m -> (0 < F2R m e)%R.
Proof.
  intros Hm. unfold F2R. apply Rmult_lt_0_compat; [|apply pow2_pos].
  now apply (IZR_lt 0).
Qed.

Lemma F2R_le m m' e : m <= m' -> (F2R m e <= F2R m' e)%R.
Proof.
  intros H. unfold F2R. apply Rmult_le_compat_r.
  - left. apply pow2_pos.
  - now apply IZR_le.
Qed.

Lemma F2R_lt_inv m m' e : (F2R m e < F2R m' e)%R -> m < m'.
Proof.
  unfold F2R. intros H. apply lt_IZR.
  apply (Rmult_lt_reg_r (pow2 e)); [apply pow2_pos|exact H].
Qed.

Lemma valid_finite s m e :
  valid_binary (S754_finite s m e) = true ->
  fexp64 (Zdigits2 (Z.pos m) + e) = e /\ e <= 971.
Proof.
  cbn [SpecFloat.valid_binary]. unfold bounded, canonical_mantissa.
  intros H. apply andb_true_iff in H. destruct H as [H1 H2].
  apply Z.eqb_eq in H1. apply Z.leb_le in H2. split; [exact H1|exact H2].
Qed.

(** What a canonical mantissa and exponent say of each other. *)
Lemma canonical_facts m e :
  0 < m -> fexp64 (Zdigits2 m + e) = e ->
  m <= 2 ^ 53 - 1 /\ -1074 <= e /\ (-1074 < e -> 2 ^ 52 <= m).
Proof.
  intros Hm Hc. rewrite fexp64_eq in Hc.
  pose proof (Zdigits2_bounds m Hm) as [Hlo Hhi].
  pose proof (Zdigits2_pos m Hm) as Hd.
  assert (Hd53 : Zdigits2 m <= 53) by lia.
  assert (2 ^ Zdigits2 m <= 2 ^ 53) by (apply Z.pow_le_mono_r; lia).
  repeat split; try lia.
  intros He. assert (Zdigits2 m = 53) by lia.
  rewrite H0 in Hlo. exact Hlo.
Qed.

Lemma SFltb_of_values m1 e1 m2 e2 :
  fexp64 (Zdigits2 (Z.pos m1) + e1) = e1 ->
  fexp64 (Zdigits2 (Z.pos m2) + e2) = e2 ->
  (F2R (Z.pos m1) e1 < F2R (Z.pos m2) e2)%R ->
  SFltb (S754_finite false m1 e1) (S754_finite false m2 e2) = true.
Proof.
  intros Hc1 Hc2 Hlt.
  destruct (canonical_facts (Z.pos m1) e1 ltac:(lia) Hc1) as (Hm1 & He1 & Hn1).
  destruct (canonical_facts (Z.pos m2) e2 ltac:(lia) Hc2) as (Hm2 & He2 & Hn2).
  unfold SFltb, SFcompare.
  destruct (Z.compare_spec e1 e2) as [Heq|Hl|Hg].
  - subst e2. apply F2R_lt_inv in Hlt.
    assert (Hc : (m1 ?= m2)%positive = Lt) by (apply Pos.compare_lt_iff; lia).
    rewrite Pos.compare_cont_spec, Hc. reflexivity.
  - reflexivity.
  - exfalso. specialize (Hn1 ltac:(lia)).
    assert (H1 : (F2R (2 ^ 52) e1 <= F2R (Z.pos m1) e1)%R) by now apply F2R_le.
    assert (H2 : (F2R (Z.pos m2) e2 <= F2R (2 ^ 53 - 1) e2)%R) by now apply F2R_le.
    assert (H3 : (pow2 (e2 + 1) <= pow2 e1)%R) by (apply pow2_le; lia).
    rewrite pow2_succ in H3.
    pose proof (pow2_pos e2) as Hu.
    unfold F2R in *.
    change (2 ^ 52) with 4503599627370496 in H1.
    change (2 ^ 53 - 1) with 9007199254740991 in H2.
    lra.
Qed.

Lemma Rabs_le_bounds a b : (Rabs a <= b)%R -> (- b <= a <= b)%R.
Proof. unfold Rabs. destruct (Rcase_abs a); lra. Qed.

Lemma pow2_lt_inv a b : (pow2 a < pow2 b)%R -> a < b.
Proof.
  intros H. destruct (Z_lt_le_dec a b) as [|Hge]; [assumption|].
  apply pow2_le in Hge. lra.
Qed.

Lemma F2R_ge_pow2 m e : 0 < m -> (pow2 (Zdigits2 m - 1 + e) <= F2R m e)%R.
Proof.
  intros Hm. pose proof (Zdigits2_bounds m Hm) as [Hlo _].
  pose proof (Zdigits2_pos m Hm).
  rewrite pow2_add, (pow2_IZR (Zdigits2 m - 1)) by lia.
  unfold F2R. apply Rmult_le_compat_r; [left; apply pow2_pos|now apply IZR_le].
Qed.

Lemma F2R_lt_pow2 m e : 0 <= m -> (F2R m e < pow2 (Zdigits2 m + e))%R.
Proof.
  intros Hm. pose proof (Zdigits2_nonneg m).
  rewrite pow2_add, (pow2_IZR (Zdigits2 m)) by lia.
  unfold F2R. apply Rmult_lt_compat_r; [apply pow2_pos|].
  apply IZR_lt. destruct (Z.eq_dec m 0) as [->|]; [cbn; lia|].
  apply Zdigits2_bounds. lia.
Qed.

(** A rounding error below half a unit of [e1] on a multiple of that unit
    is no error. *)
Lemma round_exact m3 e3 e1 k x :
  e1 <= e3 ->
  (Rabs (F2R m3 e3 - x) <= pow2 e1 / 2)%R ->
  x = F2R k e1 ->
  F2R m3 e3 = x.
Proof.
  intros He Herr ->.
  replace e3 with (e1 + (e3 - e1)) in * by lia.
  rewrite <- F2R_shift in * by lia.
  set (a := m3 * 2 ^ (e3 - e1)) in *.
  unfold F2R in *. pose proof (pow2_pos e1) as Hu.
  apply Rabs_le_bounds in Herr.
  assert (Hak : a = k).
  { assert (H1 : (IZR (a - k) * pow2 e1 <= pow2 e1 / 2)%R) by (rewrite minus_IZR; lra).
    assert (H2 : (- (pow2 e1 / 2) <= IZR (a - k) * pow2 e1)%R) by (rewrite minus_IZR; lra).
    assert (H3 : (IZR (a - k) < 1)%R).
    { apply (Rmult_lt_reg_r (pow2 e1)); [exact Hu|]. lra. }
    assert (H4 : (-1 < IZR (a - k))%R).
    { apply (Rmult_lt_reg_r (pow2 e1)); [exact Hu|]. lra. }
    apply (lt_IZR _ 1) in H3. apply (lt_IZR (-1)) in H4. lia. }
  now rewrite Hak.
Qed.

Lemma Pos_iter_xO mx d : Z.pos (Pos.iter xO mx d) = Z.pos mx * 2 ^ Z.pos d.
Proof.
  induction d as [|d IH] using Pos.peano_ind.
  - cbn. lia.
  - rewrite Pos.iter_succ, Pos2Z.inj_xO, IH, Pos2Z.inj_succ, Z.pow_succ_r by lia. lia.
Qed.

Lemma shl_align_value mx ex ex' :
  F2R (Z.pos (fst (shl_align mx ex ex'))) (snd (shl_align mx ex ex')) = F2R (Z.pos mx) ex
  /\ snd (shl_align mx ex ex') <= ex.
Proof.
  unfold shl_align. destruct (ex' - ex) as [|d|d] eqn:Hd; cbn [fst snd].
  - split; [reflexivity|lia].
  - split; [reflexivity|lia].
  - split; [|lia]. rewrite Pos_iter_xO, F2R_shift by lia. f_equal. lia.
Qed.

(** A positive integer below 2^53 converts exactly. *)
Lemma binary_normalize_value i :
  0 < i < 2 ^ 53 ->
  exists p e,
    binary_normalize prec emax i 0 false = S754_finite false p e
    /\ F2R (Z.pos p) e = IZR i.
Proof.
  intros Hi. destruct i as [|pi|pi]; try lia.
  cbn [binary_normalize]. unfold binary_round.
  destruct (shl_align_value pi 0 (SpecFloat.fexp prec emax (Z.pos (digits2_pos pi) + 0)))
    as [Hval Hez].
  destruct (shl_align pi 0 _) as [mz ez]. cbn [fst snd] in *.
  assert (Hx : F2R (Z.pos mz) ez = IZR (Z.pos pi)).
  { rewrite Hval. unfold F2R, pow2. cbn. lra. }
  destruct (binary_round_aux_spec (IZR (Z.pos pi)) (Z.pos mz) ez loc_Exact
              ltac:(lia) (eq_sym Hx))
    as (m3 & e3 & Hm3 & He13 & Herr & Hres & _).
  set (e1 := Z.max ez (fexp64 (Zdigits2 (Z.pos mz) + ez))) in *.
  assert (Hi53 : (IZR (Z.pos pi) < pow2 53)%R).
  { rewrite pow2_IZR by lia. apply IZR_lt. lia. }
  assert (He1 : e1 <= 0).
  { pose proof (F2R_ge_pow2 (Z.pos mz) ez ltac:(lia)) as Hlo.
    rewrite Hx in Hlo.
    assert (Zdigits2 (Z.pos mz) - 1 + ez < 53) by (apply pow2_lt_inv; lra).
    subst e1. rewrite fexp64_eq. lia. }
  assert (Hexact : F2R m3 e3 = IZR (Z.pos pi)).
  { apply (round_exact m3 e3 e1 (Z.pos pi * 2 ^ (- e1))); try assumption.
    rewrite F2R_shift by lia. replace (e1 + - e1) with 0 by lia.
    unfold F2R, pow2. cbn. lra. }
  assert (Hipos : (0 < IZR (Z.pos pi))%R) by (apply (IZR_lt 0); lia).
  destruct m3 as [|p3|p3]; try lia.
  - unfold F2R in Hexact. cbn in Hexact. lra.
  - assert (He3 : e3 < 53).
    { apply pow2_lt_inv.
      assert ((pow2 e3 <= F2R (Z.pos p3) e3)%R).
      { unfold F2R. pose proof (pow2_pos e3).
        assert (1 <= IZR (Z.pos p3))%R by (apply (IZR_le 1); lia).
        rewrite <- (Rmult_1_l (pow2 e3)) at 1.
        apply Rmult_le_compat_r; lra. }
      lra. }
    exists p3, e3. split; [|exact Hexact].
    rewrite Hres. replace (e3 <=? 971) with true; [reflexivity|].
    symmetry. apply Z.leb_le. lia.
Qed.

(** ** Products and quotients *)

Lemma F2R_mult m1 e1 m2 e2 : F2R (m1 * m2) (e1 + e2) = (F2R m1 e1 * F2R m2 e2)%R.
Proof. unfold F2R. rewrite mult_IZR, pow2_add. ring. Qed.

(** The product of a positive integer [k] (as the double [(pk, ek)]) and a
    positive double [(m, e)], as [SFmul] rounds it. *)
Lemma product_round k pk ek m e :
  1 <= k ->
  fexp64 (Zdigits2 (Z.pos pk) + ek) = ek ->
  F2R (Z.pos pk) ek = IZR k ->
  -1074 <= e ->
  let x := (IZR k * F2R (Z.pos m) e)%R in
  (exists p' e',
      SF64mul (S754_finite false pk ek) (S754_finite false m e) = S754_finite false p' e'
      /\ fexp64 (Zdigits2 (Z.pos p') + e') = e'
      /\ (Rabs (F2R (Z.pos p') e' - x) <= pow2 e' / 2)%R
      /\ (e' = -1074 -> F2R (Z.pos p') e' = x))
  \/ (SF64mul (S754_finite false pk ek) (S754_finite false m e) = S754_infinity false
      /\ (max_float_value <= x)%R).
Proof.
  intros Hk Hck Hvk He x.
  unfold SF64mul, SFmul. cbn [xorb].
  set (M := Z.pos (pk * m)). set (E := ek + e).
  assert (HxM : x = F2R M E).
  { subst x M E. rewrite Pos2Z.inj_mul, F2R_mult, Hvk. reflexivity. }
  assert (Hxpos : (0 < x)%R).
  { rewrite HxM. apply F2R_pos. subst M. lia. }
  (* the integer is a normal number *)
  destruct (canonical_facts (Z.pos pk) ek ltac:(lia) Hck) as (Hpk & Hek & Hnk).
  assert (Hek' : -1074 < ek).
  { destruct (Z.eq_dec ek (-1074)) as [Heq|]; [|lia]. exfalso.
    assert (H1 : (F2R (Z.pos pk) ek <= F2R (2 ^ 53 - 1) ek)%R) by now apply F2R_le.
    rewrite Hvk, Heq in H1.
    assert (H2 : (pow2 (-1074) <= pow2 (-53))%R) by (apply pow2_le; lia).
    assert (H3 : (pow2 (-53 + 53) = pow2 (-53) * pow2 53)%R) by apply pow2_add.
    change (pow2 (-53 + 53)) with 1%R in H3.
    rewrite (pow2_IZR 53) in H3 by lia. change (2 ^ 53) with 9007199254740992 in H3.
    unfold F2R in H1. change (2 ^ 53 - 1) with 9007199254740991 in H1.
    assert (1 <= IZR k)%R by now apply (IZR_le 1).
    pose proof (pow2_pos (-1074)). pose proof (pow2_pos (-53)). nra. }
  specialize (Hnk Hek').
  (* the product is aligned *)
  assert (HM52 : 2 ^ 52 <= M).
  { subst M. rewrite Pos2Z.inj_mul. nia. }
  assert (HdM : 53 <= Zdigits2 M) by (apply (Zdigits2_ge M 52); lia).
  assert (Hal : E <= fexp64 (Zdigits2 M + E)) by (rewrite fexp64_eq; lia).
  destruct (binary_round_aux_spec x M E loc_Exact ltac:(subst M; lia) HxM)
    as (m3 & e3 & Hm3 & He13 & Herr & Hres & Hcanon).
  specialize (Hcanon Hal).
  replace (Z.max E (fexp64 (Zdigits2 M + E))) with (fexp64 (Zdigits2 M + E)) in * by lia.
  set (e1 := fexp64 (Zdigits2 M + E)) in *.
  assert (He1 : -1074 <= e1) by (subst e1; rewrite fexp64_eq; lia).
  (* the product is a multiple of 2^-1074 *)
  assert (Hmult : x = F2R (k * Z.pos m * 2 ^ (e + 1074)) (-1074)).
  { rewrite F2R_shift by lia. replace (-1074 + (e + 1074)) with e by lia.
    subst x. unfold F2R. rewrite mult_IZR. ring. }
  assert (Hsub : e1 = -1074 -> F2R m3 e3 = x).
  { intros Heq. apply (round_exact m3 e3 e1 (k * Z.pos m * 2 ^ (e + 1074))); try assumption.
    now rewrite Heq. }
  assert (Hle13 : (pow2 e1 <= pow2 e3)%R) by now apply pow2_le.
  pose proof (pow2_pos e1) as Hu1.
  apply Rabs_le_bounds in Herr.
  destruct m3 as [|p3|p3]; try lia.
  - (* a zero result is impossible *)
    exfalso. unfold F2R in Herr at 1 2. rewrite Rmult_0_l in Herr.
    destruct (Z.eq_dec e1 (-1074)) as [Heq|Hne].
    + specialize (Hsub Heq). unfold F2R in Hsub at 1. lra.
    + assert (He1' : e1 = Zdigits2 M + E - 53) by (subst e1; rewrite fexp64_eq in *; lia).
      pose proof (F2R_ge_pow2 M E ltac:(subst M; lia)) as Hlo. rewrite <- HxM in Hlo.
      assert ((pow2 e1 <= pow2 (Zdigits2 M - 1 + E))%R) by (apply pow2_le; lia).
      lra.
  - specialize (Hcanon ltac:(lia)).
    destruct (Z.leb_spec e3 971) as [Hfin|Hinf]; rewrite Hres.
    + left. exists p3, e3. split; [reflexivity|]. split; [exact Hcanon|]. split.
      * apply Rabs_le. lra.
      * intros Heq. apply Hsub. lia.
    + right. split; [reflexivity|].
      destruct (canonical_facts (Z.pos p3) e3 ltac:(lia) Hcanon) as (_ & _ & Hn3).
      specialize (Hn3 ltac:(lia)).
      assert (H1 : (F2R (2 ^ 52) e3 <= F2R (Z.pos p3) e3)%R) by now apply F2R_le.
      assert (H2 : (pow2 (971 + 1) <= pow2 e3)%R) by (apply pow2_le; lia).
      rewrite pow2_succ in H2.
      unfold F2R in H1. change (2 ^ 52) with 4503599627370496 in H1.
      unfold max_float_value. pose proof (pow2_pos 971).
      unfold F2R in Herr. lra.
Qed.

Lemma new_location_inbetween m2 q r u x :
  0 < m2 -> 0 <= r < m2 -> (0 < u)%R ->
  x = ((IZR q + IZR r / IZR m2) * u)%R ->
  match new_location m2 r with
  | loc_Exact => x = (IZR q * u)%R
  | loc_Inexact Lt => (IZR q * u < x < (IZR q + / 2) * u)%R
  | loc_Inexact Eq => x = ((IZR q + / 2) * u)%R
  | loc_Inexact Gt => ((IZR q + / 2) * u < x < (IZR q + 1) * u)%R
  end.
Proof.
  intros Hm2 Hr Hu Hx.
  assert (HM : (0 < IZR m2)%R) by now apply (IZR_lt 0).
  set (rho := (IZR r / IZR m2)%R) in *.
  assert (Hrho : (rho * IZR m2 = IZR r)%R) by (subst rho; field; lra).
  assert (Hrho0 : r = 0 -> rho = 0%R).
  { intros ->. subst rho. unfold Rdiv. apply Rmult_0_l. }
  assert (Hrho_pos : 0 < r -> (0 < rho)%R).
  { intros H. apply (Rmult_lt_reg_r (IZR m2)); [exact HM|].
    rewrite Rmult_0_l, Hrho. now apply (IZR_lt 0). }
  assert (Hrho_lt1 : (rho < 1)%R).
  { apply (Rmult_lt_reg_r (IZR m2)); [exact HM|].
    rewrite Rmult_1_l, Hrho. apply IZR_lt. lia. }
  assert (Hlt : 2 * r < m2 -> (rho < / 2)%R).
  { intros H. apply (Rmult_lt_reg_r (IZR m2)); [exact HM|]. rewrite Hrho.
    apply IZR_lt in H. rewrite mult_IZR in H. lra. }
  assert (Heq : 2 * r = m2 -> (rho = / 2)%R).
  { intros H. apply (Rmult_eq_reg_r (IZR m2)); [|lra]. rewrite Hrho.
    apply (f_equal IZR) in H. rewrite mult_IZR in H. lra. }
  assert (Hgt : m2 < 2 * r -> (/ 2 < rho)%R).
  { intros H. apply (Rmult_lt_reg_r (IZR m2)); [exact HM|]. rewrite Hrho.
    apply IZR_lt in H. rewrite mult_IZR in H. lra. }
  unfold new_location, new_location_even, new_location_odd.
  destruct (Z.even m2) eqn:Hev.
  - destruct (Z.eqb_spec r 0) as [Hr0|Hr0].
    + rewrite Hx, (Hrho0 Hr0). lra.
    + destruct (Z.compare_spec (2 * r) m2) as [H|H|H].
      * rewrite Hx, (Heq H). reflexivity.
      * specialize (Hlt H). specialize (Hrho_pos ltac:(lia)). rewrite Hx.
        split; apply Rmult_lt_compat_r; lra.
      * specialize (Hgt H). rewrite Hx.
        split; apply Rmult_lt_compat_r; lra.
  - destruct (Z.eqb_spec r 0) as [Hr0|Hr0].
    + rewrite Hx, (Hrho0 Hr0). lra.
    + assert (Hodd : 2 * r <> m2).
      { intros H. rewrite <- H, Z.even_mul in Hev. discriminate. }
      destruct (Z.compare_spec (2 * r + 1) m2) as [H|H|H].
      * specialize (Hlt ltac:(lia)). specialize (Hrho_pos ltac:(lia)). rewrite Hx.
        split; apply Rmult_lt_compat_r; lra.
      * specialize (Hlt ltac:(lia)). specialize (Hrho_pos ltac:(lia)). rewrite Hx.
        split; apply Rmult_lt_compat_r; lra.
      * specialize (Hgt ltac:(lia)). rewrite Hx.
        split; apply Rmult_lt_compat_r; lra.
Qed.

(** The quotient and the location [SFdiv] hands to the rounding. *)
Lemma div_core_located m1 e1 m2 e2 :
  let r := SFdiv_core_binary prec emax (Z.pos m1) e1 (Z.pos m2) e2 in
  0 <= fst (fst r)
  /\ inbetween (F2R (Z.pos m1) e1 / F2R (Z.pos m2) e2)
       (fst (fst r)) (snd (fst r)) (snd r).
Proof.
  unfold SFdiv_core_binary.
  set (e' := Z.min _ (e1 - e2)).
  set (s := e1 - e2 - e').
  assert (Hs : 0 <= s) by (subst s e'; lia).
  set (m' := match s with Z.pos _ => Z.shiftl (Z.pos m1) s | 0 => Z.pos m1 | Z.neg _ => 0 end).
  assert (Hm' : m' = Z.pos m1 * 2 ^ s).
  { subst m'. destruct s as [|p|p]; try lia.
    apply Z.shiftl_mul_pow2. lia. }
  assert (Hp : 0 < 2 ^ s) by (apply Z.pow_pos_nonneg; lia).
  pose proof (Z_div_mod m' (Z.pos m2) ltac:(lia)) as Hdiv.
  destruct (Z.div_eucl m' (Z.pos m2)) as [q r]. cbn [fst snd].
  destruct Hdiv as [Hqr Hr].
  assert (Hq : 0 <= q) by nia.
  split; [exact Hq|].
  pose proof (pow2_pos e') as Hu. pose proof (pow2_pos e2) as Hu2.
  assert (HM2 : (0 < IZR (Z.pos m2))%R) by (apply (IZR_lt 0); lia).
  assert (Hx : (F2R (Z.pos m1) e1 / F2R (Z.pos m2) e2
                = (IZR q + IZR r / IZR (Z.pos m2)) * pow2 e')%R).
  { assert (He1 : e1 = e2 + (e' + s)) by (subst s; lia).
    unfold F2R. rewrite He1, !pow2_add, (pow2_IZR s) by lia.
    assert (Hm'R : (IZR (Z.pos m1) * IZR (2 ^ s) = IZR (Z.pos m2) * IZR q + IZR r)%R).
    { rewrite <- mult_IZR, <- Hm', Hqr, plus_IZR, mult_IZR. reflexivity. }
    replace (IZR (Z.pos m1) * (pow2 e2 * (pow2 e' * IZR (2 ^ s))))%R
      with ((IZR (Z.pos m2) * IZR q + IZR r) * (pow2 e2 * pow2 e'))%R
      by (rewrite <- Hm'R; ring).
    field. lra. }
  pose proof (new_location_inbetween (Z.pos m2) q r (pow2 e') _ ltac:(lia) Hr Hu Hx) as Hloc.
  unfold inbetween, F2R. exact Hloc.
Qed.

Lemma shiftl_le_value m e : 0 <= m -> (IZR (Z.shiftl m e) <= F2R m e)%R.
Proof.
  intros Hm. destruct (Z_le_gt_dec 0 e) as [He|He].
  - rewrite Z.shiftl_mul_pow2 by lia.
    pose proof (F2R_shift m 0 e He) as H. rewrite Z.add_0_l in H.
    rewrite <- H. unfold F2R, pow2. cbn. lra.
  - rewrite Z.shiftl_div_pow2 by lia.
    assert (Hp : 0 < 2 ^ (- e)) by (apply Z.pow_pos_nonneg; lia).
    assert (Hdiv : m / 2 ^ (- e) * 2 ^ (- e) <= m).
    { rewrite Z.mul_comm. apply Z.mul_div_le. lia. }
    apply IZR_le in Hdiv. rewrite mult_IZR, <- pow2_IZR in Hdiv by lia.
    assert (Hone : (pow2 (- e) * pow2 e = 1)%R).
    { rewrite <- pow2_add. replace (- e + e) with 0 by lia. reflexivity. }
    unfold F2R. pose proof (pow2_pos e) as Hu.
    assert (H1 : (IZR (m / 2 ^ (- e)) * pow2 (- e) * pow2 e <= IZR m * pow2 e)%R)
      by (apply Rmult_le_compat_r; lra).
    rewrite Rmult_assoc, Hone, Rmult_1_r in H1. exact H1.
Qed.

(** A quotient whose floor is [z >= 1] bounds [z] times the divisor by the
    dividend, up to one rounding. *)
Lemma quotient_lower_bound mT eT m e mq eq z :
  SF64div (S754_finite false mT eT) (S754_finite false m e) = S754_finite false mq eq ->
  fexp64 (Zdigits2 (Z.pos mq) + eq) = eq ->
  Z.shiftl (Z.pos mq) eq = z -> 1 <= z ->
  (IZR z * F2R (Z.pos m) e * (1 - / 9007199254740992) <= F2R (Z.pos mT) eT)%R.
Proof.
  intros Hdiv Hcq Hz Hz1.
  unfold SF64div, SFdiv in Hdiv. cbn [xorb] in Hdiv.
  pose proof (div_core_located mT eT m e) as Hcore.
  destruct (SFdiv_core_binary prec emax (Z.pos mT) eT (Z.pos m) e) as [[mz ez] lz].
  cbn [fst snd] in Hcore. destruct Hcore as [Hmz Hloc].
  set (x := (F2R (Z.pos mT) eT / F2R (Z.pos m) e)%R) in *.
  destruct (binary_round_aux_spec x mz ez lz Hmz Hloc)
    as (m3 & e3 & Hm3 & He13 & Herr & Hres & _).
  rewrite Hres in Hdiv.
  assert (Hm3q : m3 = Z.pos mq /\ e3 = eq).
  { destruct m3 as [|p3|p3]; try discriminate.
    destruct (e3 <=? 971); try discriminate.
    injection Hdiv as -> ->. auto. }
  destruct Hm3q as [-> ->].
  set (e1 := Z.max ez (fexp64 (Zdigits2 mz + ez))) in *.
  assert (Hu1 : (pow2 e1 <= pow2 eq)%R) by now apply pow2_le.
  pose proof (pow2_pos e1) as Hu1pos.
  apply Rabs_le_bounds in Herr.
  destruct (canonical_facts (Z.pos mq) eq ltac:(lia) Hcq) as (Hmq & Heq & Hnq).
  pose proof (shiftl_le_value (Z.pos mq) eq ltac:(lia)) as HzV. rewrite Hz in HzV.
  assert (Hz1R : (1 <= IZR z)%R) by now apply (IZR_le 1).
  assert (Heq' : -1074 < eq).
  { destruct (Z.eq_dec eq (-1074)) as [Heq0|]; [|lia]. exfalso.
    assert (H1 : (F2R (Z.pos mq) eq <= F2R (2 ^ 53 - 1) eq)%R) by now apply F2R_le.
    rewrite Heq0 in H1, HzV.
    assert (H2 : (pow2 (-1074) <= pow2 (-53))%R) by (apply pow2_le; lia).
    assert (H3 : (pow2 (-53 + 53) = pow2 (-53) * pow2 53)%R) by apply pow2_add.
    change (pow2 (-53 + 53)) with 1%R in H3.
    rewrite (pow2_IZR 53) in H3 by lia. change (2 ^ 53) with 9007199254740992 in H3.
    unfold F2R in H1 at 2. change (2 ^ 53 - 1) with 9007199254740991 in H1.
    pose proof (pow2_pos (-1074)). pose proof (pow2_pos (-53)). lra. }
  specialize (Hnq Heq').
  assert (H52 : (F2R (2 ^ 52) eq <= F2R (Z.pos mq) eq)%R) by now apply F2R_le.
  unfold F2R in H52 at 1. change (2 ^ 52) with 4503599627370496 in H52.
  set (V := F2R (Z.pos mq) eq) in *.
  pose proof (F2R_pos (Z.pos m) e ltac:(lia)) as HS.
  pose proof (F2R_pos (Z.pos mT) eT ltac:(lia)) as HT.
  set (Sv := F2R (Z.pos m) e) in *. set (Tv := F2R (Z.pos mT) eT) in *.
  assert (Hx : (x * Sv = Tv)%R) by (subst x; field; lra).
  assert (Hzx : (IZR z * (1 - / 9007199254740992) <= x)%R) by lra.
  rewrite <- Hx.
  replace (IZR z * Sv * (1 - / 9007199254740992))%R
    with (IZR z * (1 - / 9007199254740992) * Sv)%R by ring.
  apply Rmult_le_compat_r; lra.
Qed.

(** ** Products of an index and the step *)

Lemma of_int_zero : Prim2SF (CDouble.of_int 0) = S754_zero false.
Proof. reflexivity. Qed.

Lemma of_int_class k :
  1 <= k < 2 ^ 53 ->
  exists pk ek,
    Prim2SF (CDouble.of_int k) = S754_finite false pk ek
    /\ F2R (Z.pos pk) ek = IZR k
    /\ fexp64 (Zdigits2 (Z.pos pk) + ek) = ek.
Proof.
  intros Hk. unfold CDouble.of_int.
  destruct (Z.ltb_spec k 0) as [|_]; [lia|].
  pose proof (Prim2SF_valid (of_uint63 (Uint63.of_Z k))) as Hvalid.
  rewrite of_uint63_spec, Uint63.of_Z_spec in *.
  assert (Hmod : k mod Uint63.wB = k).
  { apply Z.mod_small. change Uint63.wB with (2 ^ 63).
    assert (2 ^ 53 < 2 ^ 63) by (cbn; lia). lia. }
  rewrite Hmod in *.
  destruct (binary_normalize_value k ltac:(lia)) as (pk & ek & Hnorm & Hval).
  rewrite Hnorm in *. exists pk, ek. repeat split; try assumption.
  now apply valid_finite in Hvalid.
Qed.

Lemma times_step k step m e :
  1 <= k < 2 ^ 53 ->
  Prim2SF step = S754_finite false m e ->
  let x := (IZR k * F2R (Z.pos m) e)%R in
  (exists p' e',
      Prim2SF (CDouble.of_int k * step) = S754_finite false p' e'
      /\ fexp64 (Zdigits2 (Z.pos p') + e') = e'
      /\ (Rabs (F2R (Z.pos p') e' - x) <= pow2 e' / 2)%R
      /\ (e' = -1074 -> F2R (Z.pos p') e' = x))
  \/ (Prim2SF (CDouble.of_int k * step) = S754_infinity false
      /\ (max_float_value <= x)%R).
Proof.
  intros Hk Hstep x.
  destruct (of_int_class k Hk) as (pk & ek & Hpk & Hvk & Hck).
  pose proof (Prim2SF_valid step) as Hvs. rewrite Hstep in Hvs.
  apply valid_finite in Hvs. destruct Hvs as [Hcs _].
  destruct (canonical_facts (Z.pos m) e ltac:(lia) Hcs) as (_ & He & _).
  rewrite FloatAxioms.mul_spec, Hpk, Hstep.
  apply product_round; try assumption. lia.
Qed.

Lemma SFltb_zero_finite m e :
  SFltb (S754_zero false) (S754_finite false m e) = true.
Proof. reflexivity. Qed.

(** The elapsed times [i * S] strictly increase with the index, over the
    indices of a run: the rounded products of a positive step by two
    different indices below the point count are different, in order. *)
Lemma products_increase D step z i j :
  (0 <? step)%float = true ->
  CDouble.floor_value (D * 60 / step) = Some z ->
  z <= 238609293 ->
  0 <= i < j -> j <= z ->
  (CDouble.of_int i * step <? CDouble.of_int j * step)%float = true.
Proof.
  intros Hstep Hfloor Hzmax Hij Hjz.
  unfold CDouble.floor_value in Hfloor.
  destruct (Prim2SF (D * 60 / step)) as [sq0| | |sq mq eq] eqn:Hq; try discriminate.
  { injection Hfloor as <-. lia. }
  injection Hfloor as Hfloor.
  assert (Hsq : sq = false).
  { destruct sq; [|reflexivity]. cbn in Hfloor.
    pose proof (Z.shiftl_nonneg (Z.neg mq) eq). lia. }
  subst sq. cbn [cond_Zopp] in Hfloor.
  pose proof (Prim2SF_valid (D * 60 / step)) as Hvq. rewrite Hq in Hvq.
  apply valid_finite in Hvq. destruct Hvq as [Hcq _].
  (* the step and the duration in minutes are finite and positive *)
  rewrite FloatAxioms.div_spec in Hq.
  pose proof (Prim2SF_valid (D * 60)) as HvT.
  pose proof (Prim2SF_valid step) as HvS.
    destruct (Prim2SF step) as [ss|ss| |ss m e] eqn:HS.
  1-3: destruct (Prim2SF (D * 60)) as [sT|sT| |sT mT eT]; cbn in Hq; discriminate.
  assert (Hss : ss = false).
  { destruct ss; [|reflexivity]. rewrite FloatAxioms.ltb_spec, HS in Hstep. discriminate. }
  subst ss.
  destruct (Prim2SF (D * 60)) as [sT|sT| |sT mT eT] eqn:HT; try (cbn in Hq; discriminate).
  assert (HsT : sT = false).
  { unfold SF64div, SFdiv in Hq.
    destruct (SFdiv_core_binary prec emax (Z.pos mT) eT (Z.pos m) e) as [[mz ez] lz].
    pose proof (binary_round_aux_sign (xorb sT false) mz ez lz) as Hsign.
    rewrite Hq in Hsign. cbn in Hsign. destruct sT; [discriminate|reflexivity]. }
  subst sT.
  apply valid_finite in HvT, HvS. destruct HvT as [HcT HeT]. destruct HvS as [HcS HeS].
  pose proof (quotient_lower_bound _ _ _ _ _ _ _ Hq Hcq Hfloor ltac:(lia)) as Hbound.
  set (Sv := F2R (Z.pos m) e) in *. set (Tv := F2R (Z.pos mT) eT) in *.
  pose proof (F2R_pos (Z.pos m) e ltac:(lia)) as HSpos. fold Sv in HSpos.
  assert (HTmax : (Tv <= max_float_value)%R).
  { destruct (canonical_facts (Z.pos mT) eT ltac:(lia) HcT) as (HmT & _ & _).
    assert (H1 : (F2R (Z.pos mT) eT <= F2R (2 ^ 53 - 1) eT)%R) by now apply F2R_le.
    assert (H2 : (pow2 eT <= pow2 971)%R) by now apply pow2_le.
    unfold F2R in H1 at 2. change (2 ^ 53 - 1) with 9007199254740991 in H1.
    unfold max_float_value. pose proof (pow2_pos eT). fold Tv in H1.
    assert (9007199254740991 * pow2 eT <= 9007199254740991 * pow2 971)%R
      by (apply Rmult_le_compat_l; lra).
    lra. }
  (* the exact products *)
  set (xi := (IZR i * Sv)%R). set (xj := (IZR j * Sv)%R). set (zs := (IZR z * Sv)%R).
  assert (Hgap : (xi + Sv <= xj)%R).
  { subst xi xj. replace (IZR i * Sv + Sv)%R with ((IZR i + 1) * Sv)%R by ring.
    apply Rmult_le_compat_r; [lra|]. rewrite <- plus_IZR. apply IZR_le. lia. }
  assert (Hxi0 : (0 <= xi)%R).
  { subst xi. apply Rmult_le_pos; [apply (IZR_le 0); lia|lra]. }
  assert (Hxjz : (xj <= zs)%R).
  { subst xj zs. apply Rmult_le_compat_r; [lra|]. apply IZR_le. lia. }
  assert (Hzs : (zs <= 268435456 * Sv)%R).
  { subst zs. apply Rmult_le_compat_r; [lra|]. apply IZR_le. lia. }
  fold zs in Hbound.
  assert (HxiT : (xi < max_float_value)%R) by lra.
  assert (Hk53 : 2 ^ 28 < 2 ^ 53) by (cbn; lia).
  rewrite FloatAxioms.ltb_spec.
  (* the later product *)
  destruct (times_step j step m e ltac:(lia) HS)
    as [(pj & ej & HRj & Hcj & Herrj & Hexj)|(HRj & Hinfj)]; rewrite HRj.
  - fold Sv in Herrj, Hexj. fold xj in Herrj, Hexj.
    destruct (Z.eq_dec i 0) as [->|Hi0].
    + rewrite FloatAxioms.mul_spec, of_int_zero, HS. reflexivity.
    + destruct (times_step i step m e ltac:(lia) HS)
        as [(pi & ei & HRi & Hci & Herri & Hexi)|(HRi & Hinfi)]; rewrite HRi.
      * fold Sv in Herri, Hexi. fold xi in Herri, Hexi.
        apply SFltb_of_values; try assumption.
        destruct (canonical_facts (Z.pos pi) ei ltac:(lia) Hci) as (Hpi & Hei & Hni).
        destruct (canonical_facts (Z.pos pj) ej ltac:(lia) Hcj) as (Hpj & Hej & Hnj).
        assert (Hi1 : (F2R (Z.pos pi) ei <= F2R (2 ^ 53 - 1) ei)%R) by now apply F2R_le.
        assert (Hj1 : (F2R (Z.pos pj) ej <= F2R (2 ^ 53 - 1) ej)%R) by now apply F2R_le.
        unfold F2R in Hi1 at 2. unfold F2R in Hj1 at 2.
        change (2 ^ 53 - 1) with 9007199254740991 in Hi1, Hj1.
        set (Vi := F2R (Z.pos pi) ei) in *. set (Vj := F2R (Z.pos pj) ej) in *.
        apply Rabs_le_bounds in Herri, Herrj.
        pose proof (pow2_pos ei) as Hui. pose proof (pow2_pos ej) as Huj.
        destruct (Z.eq_dec ej (-1074)) as [Hej0|Hej0].
        -- specialize (Hexj Hej0).
           destruct (Z.eq_dec ei (-1074)) as [Hei0|Hei0].
           ++ specialize (Hexi Hei0). lra.
           ++ exfalso. specialize (Hni ltac:(lia)).
              assert (Hi2 : (F2R (2 ^ 52) ei <= Vi)%R) by now apply F2R_le.
              unfold F2R in Hi2. change (2 ^ 52) with 4503599627370496 in Hi2.
              assert (Hu : (pow2 (ej + 1) <= pow2 ei)%R) by (apply pow2_le; lia).
              rewrite pow2_succ in Hu. lra.
        -- specialize (Hnj ltac:(lia)).
           assert (Hj2 : (F2R (2 ^ 52) ej <= Vj)%R) by now apply F2R_le.
           unfold F2R in Hj2. change (2 ^ 52) with 4503599627370496 in Hj2.
           destruct (Z.eq_dec ei (-1074)) as [Hei0|Hei0].
           ++ specialize (Hexi Hei0). lra.
           ++ specialize (Hni ltac:(lia)).
              assert (Hi2 : (F2R (2 ^ 52) ei <= Vi)%R) by now apply F2R_le.
              unfold F2R in Hi2. change (2 ^ 52) with 4503599627370496 in Hi2.
              lra.
      * exfalso. fold Sv in Hinfi. fold xi in Hinfi. lra.
  - destruct (Z.eq_dec i 0) as [->|Hi0].
    + rewrite FloatAxioms.mul_spec, of_int_zero, HS. reflexivity.
    + destruct (times_step i step m e ltac:(lia) HS)
        as [(pi & ei & HRi & _)|(HRi & Hinfi)]; rewrite HRi.
      * reflexivity.
      * exfalso. fold Sv in Hinfi. fold xi in Hinfi. lra.
Qed.

(** ** The elapsed times of a call *)

Section ElapsedTimes.

Context {L : Sgp4Library}.


Lemma nth_map_seq (f : nat -> float) m k :
  (k < m)%nat -> nth k (map f (seq 0 m)) nan = f k.
Proof.
  intros Hk.
  rewrite (nth_indep _ nan (f 0%nat)) by (now rewrite length_map, length_seq).
  rewrite map_nth, seq_nth by exact Hk. reflexivity.
Qed.


(** The elapsed time of the sample of index [k >= 1], for a finite
    step greater than zero, is the product [k * stepMinutes] rounded once:
    a finite double greater than zero within half a unit in its last place
    of the product, and the product itself where it is subnormal, or plus
    infinity when the product is not below the largest double.  It is never
    a NaN, a zero or negative, and no error builds up along the samples. *)
Theorem elapsed_time_is_rounded_product step m e k :
  Prim2SF step = S754_finite false m e ->
  (1 <= k)%nat -> Z.of_nat k <= CInt.INT_MAX ->
  (exists p' e',
      Prim2SF (tsince_at step 0 k) = S754_finite false p' e'
      /\ (Rabs (F2R (Z.pos p') e' - IZR (Z.of_nat k) * F2R (Z.pos m) e)
          <= pow2 e' / 2)%R
      /\ (e' = -1074 ->
          F2R (Z.pos p') e' = (IZR (Z.of_nat k) * F2R (Z.pos m) e)%R))
  \/ (Prim2SF (tsince_at step 0 k) = S754_infinity false
      /\ (max_float_value <= IZR (Z.of_nat k) * F2R (Z.pos m) e)%R).
Proof.
  intros Hstep Hk Hmax. rewrite tsince_at_zero.
  assert (Hrange : 1 <= Z.of_nat k < 2 ^ 53).
  { unfold CInt.INT_MAX in Hmax. assert (2147483647 < 2 ^ 53) by (cbn; lia). lia. }
  destruct (times_step (Z.of_nat k) step m e Hrange Hstep)
    as [(p' & e' & Hp & _ & Hclose & Hexact)|[Hinf Hbig]].
  - left. exists p', e'. repeat split; assumption.
  - right. split; assumption.
Qed.

(** C4.  In a successful call with a step greater than zero, [sgp4] is
    called for sample [i] with the elapsed time [i * stepMinutes], the
    double product of the index and the step, and the position and velocity
    stored for the sample are those it returns there; these elapsed times
    strictly increase along the samples. *)
Theorem elapsed_time_is_index_times_step env l1 l2 D step arr tr :
  (0 <? step)%float = true ->
  propagateFromTle env l1 l2 D step = (Returned arr, tr) ->
  exists s1 s2 n,
    l1 = Some s1 /\ l2 = Some s2 /\ total_points D step = Some n
    /\ Z.of_nat (List.length arr) = 9 * n
    /\ List.length (sgp4_times tr) = Z.to_nat n
    /\ (forall i, (i < Z.to_nat n)%nat ->
        let tsince := (CDouble.of_int (Z.of_nat i) * step)%float in
        nth i (sgp4_times tr) nan = tsince
        /\ exists s' r v,
             sgp4 wgs84 (satrec_from step 0 (parsed s1 s2) i) tsince
             = (s', Some (r, v))
             /\ firstn 6 (sample arr i)
                = [at0 r; at1 r; at2 r; at0 v; at1 v; at2 v])
    /\ (forall i j, (i < j < Z.to_nat n)%nat ->
        (nth i (sgp4_times tr) nan <? nth j (sgp4_times tr) nan)%float = true).
Proof.
  intros Hstep Hres. apply run_returned_inv in Hres.
  destruct Hres as (s1 & s2 & n & -> & -> & Herr & Hn & Hall & Halloc & -> & ->).
  exists s1, s2, n.
  split; [reflexivity|]. split; [reflexivity|]. split; [exact Hn|].
  rewrite sgp4_times_run_calls, length_map, length_seq.
  split; [|split; [reflexivity|split]].
  - rewrite (run_trajectory_length Hall).
    pose proof (total_points_range _ _ Hn). lia.
  - intros i Hi. cbn zeta. rewrite nth_map_seq, tsince_at_zero by exact Hi.
    split; [reflexivity|].
    rewrite (run_trajectory_sample Hall Hi).
    pose proof (Hall i Hi) as Hok. unfold ok_at, sgp4_at in Hok.
    unfold fields_at, sample_fields. rewrite tsince_at_zero in *.
    destruct (sgp4 wgs84 (satrec_from step 0 (parsed s1 s2) i) _)
      as [s' [[r v]|]]; [|discriminate].
    exists s', r, v. split; reflexivity.
  - intros i j Hij. rewrite !nth_map_seq, !tsince_at_zero by lia.
    apply total_points_spec in Hn. destruct Hn as (z & Hz & _ & -> & Hmax).
    apply (products_increase D step z); try assumption; lia.
Qed.

End ElapsedTimes.

Section ElapsedTimesOnDecaying.

#[local] Existing Instance Stub.decaying.


Lemma elapsed_time_rounded_witness :
  Prim2SF 30 = S754_finite false 8444249301319680 (-48)
  /\ ((exists p' e',
          Prim2SF (tsince_at 30 0 2) = S754_finite false p' e'
          /\ (Rabs (F2R (Z.pos p') e' - IZR (Z.of_nat 2) * F2R 8444249301319680 (-48))
              <= pow2 e' / 2)%R
          /\ (e' = -1074 ->
              F2R (Z.pos p') e'
              = (IZR (Z.of_nat 2) * F2R 8444249301319680 (-48))%R))
      \/ (Prim2SF (tsince_at 30 0 2) = S754_infinity false
          /\ (max_float_value
              <= IZR (Z.of_nat 2) * F2R 8444249301319680 (-48))%R)).
Proof.
  assert (H1 : Prim2SF 30 = S754_finite false 8444249301319680 (-48))
    by (vm_compute; reflexivity).
  assert (H2 : (1 <= 2)%nat) by lia.
  assert (H3 : Z.of_nat 2 <= CInt.INT_MAX) by (vm_compute; discriminate).
  split; [exact H1|].
  exact (elapsed_time_is_rounded_product 30 8444249301319680 (-48) 2 H1 H2 H3).
Defined.

Lemma elapsed_time_is_index_witness :
  (0 <? 30)%float = true
  /\ exists arr tr,
       propagateFromTle Stub.env (Some Stub.line1) (Some Stub.line2) 1 30
       = (Returned arr, tr)
       /\ sgp4_times tr = [0; 30; 60]%float
       /\ (nth 1 (sgp4_times tr) nan <? nth 2 (sgp4_times tr) nan)%float = true.
Proof.
  assert (Hstep : (0 <? 30)%float = true) by reflexivity.
  split; [exact Hstep|].
  destruct (propagateFromTle Stub.env (Some Stub.line1) (Some Stub.line2) 1 30)
    as [[arr| |] tr] eqn:Hres; try (vm_compute in Hres; discriminate).
  exists arr, tr. split; [reflexivity|].
  destruct (@elapsed_time_is_index_times_step _ Stub.env _ _ 1 30 arr tr Hstep Hres)
    as (s1 & s2 & n & _ & _ & Hn & _ & Hlen & Htimes & Hincr).
  assert (Hn3 : n = 3) by (vm_compute in Hn; now injection Hn).
  subst n. split.
  - destruct (sgp4_times tr) as [|t0 [|t1 [|t2 [|t3 rest]]]]; try discriminate.
    destruct (Htimes 0%nat ltac:(vm_compute; lia)) as [H0 _].
    destruct (Htimes 1%nat ltac:(vm_compute; lia)) as [H1 _].
    destruct (Htimes 2%nat ltac:(vm_compute; lia)) as [H2 _].
    cbn [nth] in H0, H1, H2. rewrite H0, H1, H2. vm_compute. reflexivity.
  - apply Hincr. vm_compute. lia.
Defined.

End ElapsedTimesOnDecaying.
